(** * DriftDB client: wire types, the voxel reducer and the stream registry

    A shallow embedding of the TypeScript client code of DriftDB:

    - [Types]: the messages of [js-pkg/driftdb/src/types.ts] that the
      client builds, by constructor;
    - [Wire]: the declarations of [types.ts] as TypeScript reads them,
      types that JavaScript values have or do not have;
    - [Voxel]: the reducer of the voxel demo,
      [js-pkg/demos/src/pages/voxel.tsx], once on immutable records and
      once on an object heap, the way the JavaScript runs;
    - [Registry]: the per-key stream bookkeeping ([onInit], [onPush]);
    - [VoxelLog]: the voxel reducer folded over a log of actions;
    - [Editor]: the editor of [voxel.tsx]: [getPosition], [handleClick],
      [VoxelSet], [Voxel] and [setInitialCameraPosition].

    Definitions come first, the theorems about them follow. *)

From Stdlib Require Import ZArith Lia List QArith Qround Ascii Floats.
From stdpp Require Import base option list gmap strings pretty.

Local Open Scope Z_scope.

(* ===================================================================== *)
(** ** types.ts *)
(* ===================================================================== *)

Module Types.

(** [export type Key = string] *)
Definition Key : Type := string.

(** TypeScript's [number], for the messages the client builds and the
    registry counts with: the integer-valued numbers, positive or negative.
    [Wire] below has the doubles in full. *)
Definition number : Type := Z.

(** [export type SequenceNumber = number] *)
Definition SequenceNumber : Type := number.

(** The three literal types of the first branch of [Action]. *)
Inductive ActionType : Type :=
| append
| replace
| relay.

(** [export type Action =
       {type: 'append' | 'replace' | 'relay'}
     | {type: 'compact', seq: SequenceNumber}] *)
Inductive Action : Type :=
| PlainAction (type : ActionType)
| CompactAction (seq : SequenceNumber).

Section WithAny.

(** TypeScript's [any]: the payload type is left open. *)
Context {any : Type}.

(** [export interface SequenceValue { value: any; seq: SequenceNumber }] *)
Record SequenceValue : Type := mkSequenceValue {
  value : any;
  seq : SequenceNumber
}.

(** [export type MessageToDb] *)
Inductive MessageToDb : Type :=
| ToPush (action : Action) (value : any) (key : Key)
| ToGet (key : Key) (seq : SequenceNumber).

(** The [type] discriminant. *)
Definition to_type (m : MessageToDb) : string :=
  match m with
  | ToPush _ _ _ => "push"
  | ToGet _ _ => "get"
  end.

(** [m.action], present on the [push] branch only. *)
Definition to_action (m : MessageToDb) : option Action :=
  match m with
  | ToPush action _ _ => Some action
  | ToGet _ _ => None
  end.

End WithAny.

Arguments SequenceValue : clear implicits.
Arguments MessageToDb : clear implicits.

(** The actions the spec allows in a client-to-server push. *)
Definition outbound_action (a : Action) : Prop :=
  a = PlainAction append \/ a = PlainAction replace \/ a = PlainAction relay.

End Types.

(* ===================================================================== *)
(** ** types.ts as TypeScript reads it *)
(* ===================================================================== *)

Module Wire.

(** The values of JavaScript that can stand in a message. A number is an
    IEEE 754 double, as in the language; an object maps property names to
    values. *)
#[warnings="-register-all"]
Inductive JsValue : Type :=
| JUndefined
| JNull
| JBoolean (b : bool)
| JNumber (n : float)
| JString (s : string)
| JArray (items : list JsValue)
| JObject (props : gmap string JsValue).

(** [v[p]] for a property an object has of its own. *)
Definition get (v : JsValue) (p : string) : option JsValue :=
  match v with
  | JObject props => props !! p
  | _ => None
  end.

(** The names of the properties of an object. *)
Definition fields (v : JsValue) : gset string :=
  match v with
  | JObject props => dom props
  | _ => ∅
  end.

(** *** Types as predicates

    An object type lists properties that a value must have; it says nothing
    about other properties, so a value with more properties has the type
    too. A union is had by the values of either side. *)

(** [{ p: T }]: the value has a property [p], of type [T]. *)
Definition has (p : string) (T : JsValue -> bool) (v : JsValue) : bool :=
  match get v p with
  | Some x => T x
  | None => false
  end.

(** A string literal type, as in [type: 'push']. *)
Definition literal (s : string) (v : JsValue) : bool :=
  match v with
  | JString t => bool_decide (t = s)
  | _ => false
  end.

(** A boolean literal type, as in [connected: false]. *)
Definition literal_boolean (b : bool) (v : JsValue) : bool :=
  match v with
  | JBoolean c => bool_decide (c = b)
  | _ => false
  end.

Definition string_type (v : JsValue) : bool :=
  match v with JString _ => true | _ => false end.

Definition number_type (v : JsValue) : bool :=
  match v with JNumber _ => true | _ => false end.

Definition any_type (v : JsValue) : bool := true.

(** [Array<T>] *)
Definition Array (T : JsValue -> bool) (v : JsValue) : bool :=
  match v with
  | JArray items => forallb T items
  | _ => false
  end.

(** [export type Key = string] *)
Definition Key : JsValue -> bool := string_type.

(** [export type SequenceNumber = number] *)
Definition SequenceNumber : JsValue -> bool := number_type.

(** [export type Action =
       {type: 'append' | 'replace' | 'relay'}
     | {type: 'compact', seq: SequenceNumber}] *)
Definition Action (v : JsValue) : bool :=
  has "type"
    (fun t => literal "append" t || literal "replace" t || literal "relay" t)
    v
  || (has "type" (literal "compact") v && has "seq" SequenceNumber v).

(** [export interface SequenceValue { value: any; seq: SequenceNumber }] *)
Definition SequenceValue (v : JsValue) : bool :=
  has "value" any_type v && has "seq" SequenceNumber v.

(** [export type MessageFromDb], the four branches in the order of the
    source. *)
Definition MessageFromDb (v : JsValue) : bool :=
  (has "type" (literal "push") v && has "key" Key v
   && has "value" SequenceValue v)
  || (has "type" (literal "init") v && has "data" (Array SequenceValue) v
      && has "key" Key v)
  || (has "type" (literal "error") v && has "message" string_type v)
  || (has "type" (literal "stream_size") v && has "key" Key v
      && has "size" number_type v).

(** [export type MessageToDb] *)
Definition MessageToDb (v : JsValue) : bool :=
  (has "type" (literal "push") v && has "action" Action v
   && has "value" any_type v && has "key" Key v)
  || (has "type" (literal "get") v && has "key" Key v
      && has "seq" SequenceNumber v).

(** [export type ConnectionStatus =
       {connected: false} | {connected: true, debugUrl: string}] *)
Definition ConnectionStatus (v : JsValue) : bool :=
  has "connected" (literal_boolean false) v
  || (has "connected" (literal_boolean true) v
      && has "debugUrl" string_type v).

(** *** What the spec says of these types *)

(** The tags a server-to-client message can bear. *)
Definition from_types : list string :=
  ["push"; "init"; "error"; "stream_size"].

(** The properties the spec lists for the message with a given tag, the
    tag itself included. *)
Definition listed_fields (tag : string) : gset string :=
  if bool_decide (tag = "push") then {["type"; "key"; "value"]}
  else if bool_decide (tag = "init") then {["type"; "key"; "data"]}
  else if bool_decide (tag = "error") then {["type"; "message"]}
  else if bool_decide (tag = "stream_size") then {["type"; "key"; "size"]}
  else ∅.

(** A double that is a whole number: zero, or a mantissa times a power of
    two that has no binary digit behind the point. *)
Definition is_integer (n : float) : bool :=
  match Prim2SF n with
  | S754_zero _ => true
  | S754_finite _ m e => (0 <=? e) || (Z.pos m mod 2 ^ (- e) =? 0)
  | _ => false
  end.

(** "Non-negative integer", of a double. *)
Definition nonnegative_integer (n : float) : bool :=
  PrimFloat.leb 0 n && is_integer n.

(** *** Sample values *)

(** [{type: 'error', message: 'boom', code: 7}] *)
Definition error_with_code : JsValue :=
  JObject (<["type" := JString "error"]>
           (<["message" := JString "boom"]>
            (<["code" := JNumber 7]> ∅))).

(** [{type: 'push', key: 'doc', value: {value: 'a', seq: 1}}] *)
Definition push_doc : JsValue :=
  JObject (<["type" := JString "push"]>
           (<["key" := JString "doc"]>
            (<["value" :=
                 JObject (<["value" := JString "a"]>
                          (<["seq" := JNumber 1]> ∅))]> ∅))).

(** [{type: 'get', key: 'doc', seq: n}] *)
Definition get_doc (n : float) : JsValue :=
  JObject (<["type" := JString "get"]>
           (<["key" := JString "doc"]>
            (<["seq" := JNumber n]> ∅))).

(** [{value: 'x', seq: n}] *)
Definition x_at (n : float) : JsValue :=
  JObject (<["value" := JString "x"]> (<["seq" := JNumber n]> ∅)).

(** [{connected: false, debugUrl: 'https://debug.example'}] *)
Definition disconnected_with_url : JsValue :=
  JObject (<["connected" := JBoolean false]>
           (<["debugUrl" := JString "https://debug.example"]> ∅)).

(** [{connected: true, debugUrl: 'https://debug.example'}] *)
Definition connected_with_url : JsValue :=
  JObject (<["connected" := JBoolean true]>
           (<["debugUrl" := JString "https://debug.example"]> ∅)).

End Wire.

(* ===================================================================== *)
(** ** voxel.tsx *)
(* ===================================================================== *)

Module Voxel.

Section WithNumber.

(** [number] and [any] stay abstract here: the reducer only ever turns a
    number into text, through [Array.prototype.join]. *)
Context {number any : Type}.
Variable toString : number -> string.

(** three's [Vector3Tuple = [number, number, number]] *)
Definition Vector3Tuple : Type := number * number * number.

(** [interface Voxel { position: Vector3Tuple; color: any; opacity: number }] *)
Record Voxel : Type := mkVoxel {
  position : Vector3Tuple;
  color : any;
  opacity : number
}.

(** [type VoxelAction = {type: 'add', voxel: Voxel} | {type: 'remove', name: string}] *)
Inductive VoxelAction : Type :=
| add (voxel : Voxel)
| remove (name : string).

(** [position.join(sep)] on a three-element array. *)
Definition join (sep : string) (p : Vector3Tuple) : string :=
  let '(x, y, z) := p in
  toString x +:+ sep +:+ toString y +:+ sep +:+ toString z.

(** [voxelReducer], on records as values: [{...state, [key]: voxel}] is an
    insertion, copying and then [delete newState[name]] is a deletion. The
    trailing [return state] is out of reach of a [VoxelAction]. *)
Definition voxelReducer (state : gmap string Voxel) (action : VoxelAction)
  : gmap string Voxel :=
  match action with
  | add voxel =>
      let key := join ":" (position voxel) in
      <[key := voxel]> state
  | remove name =>
      let newState := state in
      delete name newState
  end.

(** *** The same function on an object heap

    JavaScript records are heap objects handed around by reference. A heap
    maps locations to records; an object literal allocates a fresh location. *)

Definition loc : Type := positive.

Definition alloc (h : gmap loc (gmap string Voxel)) (o : gmap string Voxel)
  : gmap loc (gmap string Voxel) * loc :=
  let l := fresh (dom h) in (<[l := o]> h, l).

(** [voxelReducer] statement by statement: [state] is a reference, the
    result is the heap after the call and the reference returned. A
    reference that points nowhere cannot arise; it gives [None]. *)
Definition voxelReducer_heap (h : gmap loc (gmap string Voxel)) (state : loc)
  (action : VoxelAction) : option (gmap loc (gmap string Voxel) * loc) :=
  match action with
  | add voxel =>
      let key := join ":" (position voxel) in
      o ← h !! state;
      Some (alloc h (<[key := voxel]> o))
  | remove name =>
      o ← h !! state;
      let '(h1, newState) := alloc h o in
      Some (alter (delete name) newState h1, newState)
  end.

End WithNumber.

Arguments Voxel : clear implicits.
Arguments VoxelAction : clear implicits.
Arguments Vector3Tuple : clear implicits.

End Voxel.

(* ===================================================================== *)
(** ** The stream registry *)
(* ===================================================================== *)

Module Registry.

Import Types.

Section WithReducer.

(** The payload type, the reducer state, the user's reducer
    [(state, value) -> state] and its initial state. *)
Context {any State : Type}.
Variable reducer : State -> any -> State.
Variable initial : State.

(** Modelled from the spec: the client's per-key [Stream] state (the
    registry's source file is not part of the sources at hand). Section 3
    lists the highest seen sequence number, the ordered buffer of pending
    values, the materialized reducer state and the subscribers; section 4.3
    adds the value sequence that [onInit] replaces. *)
Record Stream : Type := mkStream {
  highest_seen : SequenceNumber;
  pending : list (SequenceValue any);
  values : list (SequenceValue any);
  state : State;
  subscribers : nat
}.

(** Modelled from the spec: a stream as [subscribe] creates it, nothing
    seen yet ("last known or zero"), one subscriber. *)
Definition new_stream : Stream :=
  {| highest_seen := 0; pending := []; values := [];
     state := initial; subscribers := 1 |}.

(** Modelled from the spec: the fold of section 4.4, "apply this value",
    over a value sequence. *)
Definition replay (vs : list (SequenceValue any)) (s : State) : State :=
  fold_left (fun acc v => reducer acc (value v)) vs s.

(** Modelled from the spec: "apply immediately and advance" (section 4.3):
    the value joins the value sequence, the reducer state takes one
    incremental step, the highest seen number becomes the value's. *)
Definition apply_value (v : SequenceValue any) (st : Stream) : Stream :=
  {| highest_seen := seq v;
     pending := pending st;
     values := values st ++ [v];
     state := reducer (state st) (value v);
     subscribers := subscribers st |}.

(** Modelled from the spec: the pending buffer is ordered by sequence
    number; a newcomer goes behind the entries that are not larger. *)
Fixpoint insert_pending (v : SequenceValue any) (l : list (SequenceValue any))
  : list (SequenceValue any) :=
  match l with
  | [] => [v]
  | b :: l' =>
      if seq v <? seq b then v :: b :: l' else b :: insert_pending v l'
  end.

(** Modelled from the spec: "buffered out-of-order entries are drained in
    increasing-seq order once the gap is closed". Each buffered entry meets
    the rule of [onPush] again: the next number is applied, an old one is
    dropped, and at the first entry beyond the next number the drain stops
    with the rest still buffered. *)
Fixpoint drain (st : Stream) (buffered : list (SequenceValue any)) : Stream :=
  match buffered with
  | [] =>
      {| highest_seen := highest_seen st; pending := [];
         values := values st; state := state st;
         subscribers := subscribers st |}
  | b :: rest =>
      if seq b =? highest_seen st + 1 then drain (apply_value b st) rest
      else if seq b <=? highest_seen st then drain st rest
      else
        {| highest_seen := highest_seen st; pending := b :: rest;
           values := values st; state := state st;
           subscribers := subscribers st |}
  end.

(** Modelled from the spec: [onPush(key, value)] of section 4.3, on the
    stream of the key; the second component is what is sent to the server. *)
Definition push_stream (key : Key) (v : SequenceValue any) (st : Stream)
  : Stream * list (MessageToDb any) :=
  if seq v =? highest_seen st + 1 then
    (drain (apply_value v st) (pending st), [])
  else if seq v <=? highest_seen st then
    (st, [])
  else
    ({| highest_seen := highest_seen st;
        pending := insert_pending v (pending st);
        values := values st; state := state st;
        subscribers := subscribers st |},
     [ToGet key (highest_seen st + 1)]).

(** Modelled from the spec: [onInit(key, backlog)] of section 4.3, on the
    stream of the key: the value sequence becomes the backlog, the highest
    seen number is reset to the backlog's last (zero for an empty one), and
    the reducer state is replayed from the initial state. *)
Definition init_stream (backlog : list (SequenceValue any)) (st : Stream)
  : Stream :=
  {| highest_seen := default 0 (seq <$> last backlog);
     pending := pending st;
     values := backlog;
     state := replay backlog initial;
     subscribers := subscribers st |}.

(** Modelled from the spec: the registry holds one stream per subscribed
    key; a message for a key without a stream is dropped (section 5). *)
Definition onPush (key : Key) (v : SequenceValue any) (r : gmap Key Stream)
  : gmap Key Stream * list (MessageToDb any) :=
  match r !! key with
  | None => (r, [])
  | Some st =>
      let '(st', out) := push_stream key v st in (<[key := st']> r, out)
  end.

(** Modelled from the spec: [onInit(key, backlog)] on the registry, by the
    same lookup. *)
Definition onInit (key : Key) (backlog : list (SequenceValue any))
  (r : gmap Key Stream) : gmap Key Stream :=
  match r !! key with
  | None => r
  | Some st => <[key := init_stream backlog st]> r
  end.

(** Modelled from the spec: messages are processed one at a time in
    delivery order (section 5); here a list of pushes for one key, the
    messages sent collected in order. *)
Fixpoint onPushes (key : Key) (vs : list (SequenceValue any))
  (r : gmap Key Stream) : gmap Key Stream * list (MessageToDb any) :=
  match vs with
  | [] => (r, [])
  | v :: vs' =>
      let '(r1, out1) := onPush key v r in
      let '(r2, out2) := onPushes key vs' r1 in
      (r2, out1 ++ out2)
  end.

(** *** Well-formed streams *)

(** [l] lists the numbers [lo], [lo + 1], ... without a gap. *)
Fixpoint consecutive_from (lo : Z) (l : list Z) : bool :=
  match l with
  | [] => true
  | x :: l' => (x =? lo) && consecutive_from (lo + 1) l'
  end.

(** Every entry is at most the ones behind it. *)
Fixpoint ascending (l : list (SequenceValue any)) : bool :=
  match l with
  | [] => true
  | a :: l' => forallb (fun b => seq a <=? seq b) l' && ascending l'
  end.

(** What the registry maintains for a stream: the applied values carry the
    consecutive numbers up to the highest seen one, the reducer state is
    their fold, and the buffer is ordered and lies beyond the next number. *)
Record wf_stream (st : Stream) : Prop := mk_wf_stream {
  wf_values :
    consecutive_from (highest_seen st - Z.of_nat (length (values st)) + 1)
      (seq <$> values st) = true;
  wf_state : state st = replay (values st) initial;
  wf_ascending : ascending (pending st) = true;
  wf_pending :
    forallb (fun b => highest_seen st + 1 <? seq b) (pending st) = true
}.

(** *** Deliveries *)

(** Modelled from the spec: what the server delivers for a stream, an
    [init] with a backlog or a [push] with one value (section 6). *)
Inductive delivery : Type :=
| Init (key : Key) (backlog : list (SequenceValue any))
| Push (key : Key) (v : SequenceValue any).

(** Modelled from the spec: deliveries are processed one at a time in the
    order of arrival (section 5); the messages sent are collected. *)
Fixpoint deliver (ds : list delivery) (r : gmap Key Stream)
  : gmap Key Stream * list (MessageToDb any) :=
  match ds with
  | [] => (r, [])
  | Init key backlog :: ds' => deliver ds' (onInit key backlog r)
  | Push key v :: ds' =>
      let '(r1, out1) := onPush key v r in
      let '(r2, out2) := deliver ds' r1 in
      (r2, out1 ++ out2)
  end.

(** Modelled from the spec: the server's contract for a backlog (section
    4.3): sorted by sequence number, and no number twice. *)
Definition sorted_backlog (backlog : list (SequenceValue any)) : Prop :=
  ascending backlog = true /\ NoDup (seq <$> backlog).

Definition contract (d : delivery) : Prop :=
  match d with
  | Init _ backlog => sorted_backlog backlog
  | Push _ _ => True
  end.

(** The buffer of the stream is ordered. Every operation of the registry
    keeps it so, whatever is delivered. *)
Definition ordered (st : Stream) : Prop := ascending (pending st) = true.

(** No number is in the value sequence twice, and none above the highest
    seen one. *)
Record applied_once (st : Stream) : Prop := mk_applied_once {
  once_bound :
    forallb (fun a => seq a <=? highest_seen st) (values st) = true;
  once_nodup : NoDup (seq <$> values st)
}.

End WithReducer.

Arguments Stream : clear implicits.
Arguments delivery : clear implicits.

End Registry.

(* ===================================================================== *)
(** ** Sample data *)
(* ===================================================================== *)

Module Samples.

Import Types.

(** [Number.prototype.toString] on the integers the editor produces:
    decimal digits, a minus sign in front of a negative number. *)
Definition toString : Z -> string := pretty.

(** A voxel at the origin and one that takes its place. *)
Definition red : Voxel.Voxel Z string :=
  Voxel.mkVoxel (0, 0, 0) "#D33115" 1.

Definition blue : Voxel.Voxel Z string :=
  Voxel.mkVoxel (0, 0, 0) "#0000FF" 1.

Definition green : Voxel.Voxel Z string :=
  Voxel.mkVoxel (1, 0, -2) "#00FF00" 1.

Definition scene : gmap string (Voxel.Voxel Z string) :=
  <["1:0:-2" := green]> ∅.

Definition heap1 : gmap Voxel.loc (gmap string (Voxel.Voxel Z string)) :=
  <[1%positive := scene]> ∅.

Definition heap2 : gmap Voxel.loc (gmap string (Voxel.Voxel Z string)) :=
  <[5%positive := scene]> (<[2%positive := ∅]> ∅).

(** A log of text lines: the reducer appends the payload. *)
Definition log_reducer (s : list string) (v : string) : list string := s ++ [v].

Definition sv (n : Z) (s : string) : SequenceValue string :=
  mkSequenceValue s n.

(** Three values applied, number 6 waiting for 4 and 5. *)
Definition gap_stream : Registry.Stream string (list string) :=
  Registry.mkStream 3 [sv 6 "f"] [sv 1 "a"; sv 2 "b"; sv 3 "c"]
    ["a"; "b"; "c"] 1.

Definition gap_registry : gmap Key (Registry.Stream string (list string)) :=
  <["doc" := gap_stream]> ∅.

Definition fresh_registry : gmap Key (Registry.Stream string (list string)) :=
  <["doc" := Registry.new_stream []]> ∅.

Definition backlog3 : list (SequenceValue string) :=
  [sv 1 "a"; sv 2 "b"; sv 3 "c"].

End Samples.

(* ===================================================================== *)
(** ** voxel.tsx: the reducer under [useSharedReducer] *)
(* ===================================================================== *)

Module VoxelLog.

Import Voxel.

Section WithNumber.

Context {number any : Type}.
Variable toString : number -> string.

(** The property an action writes to or deletes: [key] in the [add]
    branch of [voxelReducer], [action.name] in the [remove] branch. *)
Definition action_key (action : VoxelAction number any) : string :=
  match action with
  | add voxel => join toString ":" (position voxel)
  | remove name => name
  end.

(** [useSharedReducer("voxels", voxelReducer, ...)] folds the reducer over
    the actions of the stream, oldest first. *)
Definition reduce_all (state : gmap string (Voxel number any))
  (actions : list (VoxelAction number any)) : gmap string (Voxel number any) :=
  fold_left (voxelReducer toString) actions state.

(** The same fold on the object heap: each call gets the reference the
    call before returned. *)
Fixpoint reduce_all_heap (h : gmap loc (gmap string (Voxel number any)))
  (state : loc) (actions : list (VoxelAction number any))
  : option (gmap loc (gmap string (Voxel number any)) * loc) :=
  match actions with
  | [] => Some (h, state)
  | action :: rest =>
      '(h1, r) ← voxelReducer_heap toString h state action;
      reduce_all_heap h1 r rest
  end.

(** The last action of a list that has the key [k], if any. *)
Fixpoint last_touch (k : string) (actions : list (VoxelAction number any))
  : option (VoxelAction number any) :=
  match actions with
  | [] => None
  | action :: rest =>
      match last_touch k rest with
      | Some later => Some later
      | None => if decide (action_key action = k) then Some action else None
      end
  end.

(** Every voxel of the record sits under the key of its own position. *)
Definition keyed (state : gmap string (Voxel number any)) : Prop :=
  map_Forall (fun k voxel => k = join toString ":" (position voxel)) state.

End WithNumber.

(** No character of the string is a colon. *)
Fixpoint colon_free (s : string) : bool :=
  match s with
  | EmptyString => true
  | String c s' => negb (Ascii.eqb c ":"%char) && colon_free s'
  end.

End VoxelLog.

(* ===================================================================== *)
(** ** voxel.tsx: the editor *)
(* ===================================================================== *)

Module Editor.

Import Voxel.

(** The operations on JavaScript numbers that the editor uses: integer
    literals, the literal [0.5], [+], [*], [Math.floor], [>], [<] and the
    conversion to text. They stay abstract; [number] is not fixed either. *)
Class NumberOps (number : Type) : Type := {
  num_of_Z : Z -> number;
  num_half : number;
  num_add : number -> number -> number;
  num_mul : number -> number -> number;
  num_floor : number -> number;
  num_gt : number -> number -> bool;
  num_lt : number -> number -> bool;
  num_toString : number -> string
}.

(** What a call leaves behind: a value, or the [TypeError] of a property
    read on [null]. *)
Inductive completion (A : Type) : Type :=
| Return (a : A)
| Throw.

Arguments Return {A} a.
Arguments Throw {A}.

Section WithThree.

Context {number any : Type} `{NumberOps number}.

(** [const DIM = 15] *)
Definition DIM : number := num_of_Z 15.

(** three's [Vector3], by value, with the methods [getPosition] calls:
    [add], [multiplyScalar], [floor] and [toArray]. The source works on
    [clone()]s, so no vector of the event is written to. *)
Definition Vector3 : Type := number * number * number.

Definition Vector3_add (a v : Vector3) : Vector3 :=
  let '(x, y, z) := a in
  let '(vx, vy, vz) := v in
  (num_add x vx, num_add y vy, num_add z vz).

Definition multiplyScalar (a : Vector3) (s : number) : Vector3 :=
  let '(x, y, z) := a in (num_mul x s, num_mul y s, num_mul z s).

Definition Vector3_floor (a : Vector3) : Vector3 :=
  let '(x, y, z) := a in (num_floor x, num_floor y, num_floor z).

Definition toArray (a : Vector3) : Vector3Tuple number := a.

(** three's [Face] and [Intersection], the fields the editor reads;
    [face] may be [null]. *)
Record Face : Type := mkFace {
  normal : Vector3
}.

Record Intersection : Type := mkIntersection {
  face : option Face;
  point : Vector3
}.

(** [ThreeEvent], the fields the editor reads; [object_name] is
    [event.object.name]. *)
Record ThreeEvent : Type := mkThreeEvent {
  delta : number;
  shiftKey : bool;
  object_name : string;
  intersections : list Intersection
}.

(** The [<mesh>] that the [Voxel] component returns, with the material's
    attributes. *)
Record Mesh : Type := mkMesh {
  mesh_name : option string;
  mesh_position : Vector3Tuple number;
  mesh_scale : number;
  material_color : any;
  material_opacity : number;
  material_transparent : bool
}.

(** [function Voxel(props: { voxel: Voxel, name?: string })] *)
Definition Voxel_component (voxel : Voxel number any) (name : option string)
  : Mesh :=
  let '(p0, p1, p2) := position voxel in
  {| mesh_name := name;
     mesh_position := (p0, num_add p1 num_half, p2);
     mesh_scale := num_of_Z 1;
     material_color := color voxel;
     material_opacity := opacity voxel;
     material_transparent := num_lt (opacity voxel) (num_of_Z 1) |}.

(** [function getPosition(event)], on [event.intersections]. [face!] is no
    check at run time: reading [normal] of a [null] face throws. *)
Definition getPosition (intersections : list Intersection)
  : completion (option (Vector3Tuple number)) :=
  match intersections with
  | [] => Return None
  | first :: _ =>
      match face first with
      | None => Throw
      | Some f =>
          let normal := normal f in
          let pos :=
            Vector3_add (point first)
              (num_half, num_of_Z 0, num_half) in
          let c :=
            Vector3_floor (Vector3_add pos (multiplyScalar normal num_half)) in
          Return (Some (toArray c))
      end
  end.

(** [function VoxelSet(props)]: one [Voxel] per entry of the record, named
    by its key. The order of [Object.entries] is not modelled. *)
Definition VoxelSet (voxels : gmap string (Voxel number any)) : list Mesh :=
  (fun '(index, voxel) => Voxel_component voxel (Some index))
    <$> map_to_list voxels.

(** [setInitialCameraPosition] in [VoxelEditor]: [positionHasBeenSet] is
    the ref's [current], [controls] the camera position behind
    [controls.object.position], [None] when [controls] is [null]. The
    result is the ref and the camera after the call. *)
Definition setInitialCameraPosition (positionHasBeenSet : bool)
  (controls : option Vector3) : bool * option Vector3 :=
  match controls with
  | Some _ =>
      if negb positionHasBeenSet then
        (true, Some (num_of_Z 0, DIM, DIM))
      else (positionHasBeenSet, controls)
  | None => (positionHasBeenSet, controls)
  end.

(** [pointerMove] in [VoxelEditor]: the new ghost position. *)
Definition pointerMove (event : ThreeEvent)
  : completion (option (Vector3Tuple number)) :=
  getPosition (intersections event).

(** [handleClick] in [VoxelEditor], closed over the colour in hand. The
    result lists the actions dispatched and tells whether
    [event.stopPropagation()] was called. *)
Definition handleClick (color : any) (event : ThreeEvent)
  : completion (list (VoxelAction number any) * bool) :=
  if num_gt (delta event) (num_of_Z 5) then
    Return ([], false)
  else if shiftKey event then
    if decide (object_name event = "") then Return ([], true)
    else Return ([remove (object_name event)], true)
  else
    match getPosition (intersections event) with
    | Throw => Throw
    | Return None => Return ([], false)
    | Return (Some position) =>
        Return ([add {| position := position; color := color;
                        opacity := num_of_Z 1 |}], false)
    end.

End WithThree.

Arguments Face : clear implicits.
Arguments Intersection : clear implicits.
Arguments ThreeEvent : clear implicits.
Arguments Mesh : clear implicits.
Arguments Vector3 : clear implicits.

End Editor.

(* ===================================================================== *)
(** ** Sample data for the editor *)
(* ===================================================================== *)

Module EditorSamples.

Import Editor.

(** Exact arithmetic on the rationals. Whole numbers are printed as
    JavaScript prints them; a fraction, which the editor never joins into
    a key because coordinates are floored, is written numerator/denominator. *)
Definition Q_toString (q : Q) : string :=
  if decide (Qden q = 1%positive) then pretty (Qnum q)
  else pretty (Qnum q) +:+ "/" +:+ pretty (Zpos (Qden q)).

#[export] Instance Q_ops : NumberOps Q := {
  num_of_Z := inject_Z;
  num_half := (1 # 2)%Q;
  num_add := Qplus;
  num_mul := Qmult;
  num_floor := fun q => inject_Z (Qfloor q);
  num_gt := fun a b => negb (Qle_bool a b);
  num_lt := fun a b => negb (Qle_bool b a);
  num_toString := Q_toString
}.

(** A hit on the top face of the ground, a little off the origin. *)
Definition ground_hit : Intersection Q :=
  mkIntersection (Some (mkFace (0, 1, 0)%Q)) ((1 # 5), 0, (-3 # 10))%Q.

Definition no_face_hit : Intersection Q :=
  mkIntersection None (0, 0, 0)%Q.

Definition plain_click : ThreeEvent Q :=
  mkThreeEvent 0%Q false "" [ground_hit].

Definition drag : ThreeEvent Q :=
  mkThreeEvent (12 # 1)%Q false "1:0:-2" [ground_hit].

(** A shift-click on the mesh of the green voxel. *)
Definition shift_click : ThreeEvent Q :=
  mkThreeEvent (2 # 1)%Q true "1:0:-2" [ground_hit].

Definition green : Voxel.Voxel Q string :=
  Voxel.mkVoxel (1, 0, -2)%Q "#00FF00" 1%Q.

Definition scene : gmap string (Voxel.Voxel Q string) :=
  <["1:0:-2" := green]> ∅.

End EditorSamples.

(* ===================================================================== *)
(** ** Sample data for a resynchronization *)
(* ===================================================================== *)

Module RegistrySamples.

Import Types Samples.

Definition backlog5 : list (SequenceValue string) :=
  [sv 1 "a"; sv 2 "b"; sv 3 "c"; sv 4 "d"; sv 5 "e"].

(** The stream that buffers number 6, after an [init] with 1 to 5. *)
Definition resynced_stream : Registry.Stream string (list string) :=
  Registry.init_stream log_reducer [] backlog5 gap_stream.

Definition resynced_registry
  : gmap Key (Registry.Stream string (list string)) :=
  Registry.onInit log_reducer [] "doc" backlog5 gap_registry.

End RegistrySamples.

(* ===================================================================== *)
(** ** Theorems: the wire types *)
(* ===================================================================== *)

Section TypesTheory.

Import Types.

Context {any : Type}.

(** C1, as the types have it: the [action] of a client-to-server [push] is
    any [Action] at all, that is one of [append], [replace] and [relay], or
    a [compact] with its sequence number. *)
Theorem push_action_is_any_Action (m : MessageToDb any) :
  to_type m = "push" ->
  exists action, to_action m = Some action /\
    (outbound_action action \/ exists seq, action = CompactAction seq).
Proof.
  destruct m as [[[ | | ] | s] v k | k s]; cbn; unfold outbound_action;
    intros H; try discriminate H; eexists; split; eauto 6.
Qed.

End TypesTheory.

(** C1 as written fails: a [push] carrying [{type: 'compact', seq: 10}] is
    a [MessageToDb]. *)
Lemma compact_push_is_MessageToDb :
  let m := Types.ToPush (Types.CompactAction 10) "snapshot" "doc" in
  Types.to_type m = "push" /\
  Types.to_action m = Some (Types.CompactAction 10) /\
  ~ Types.outbound_action (Types.CompactAction 10).
Proof.
  cbn. repeat split. unfold Types.outbound_action.
  intros [H | [H | H]]; discriminate H.
Qed.

(** A [push] with a plain action, for which the theorem of C1 applies. *)
Lemma push_action_is_any_Action_witness :
  let m := Types.ToPush (Types.PlainAction Types.relay) "cursor" "users" in
  Types.to_type m = "push" /\
  exists action, Types.to_action m = Some action /\
    (Types.outbound_action action \/
     exists seq, action = Types.CompactAction seq).
Proof.
  split; [reflexivity | ].
  exact (push_action_is_any_Action
           (Types.ToPush (Types.PlainAction Types.relay) "cursor" "users")
           eq_refl).
Defined.

(* ===================================================================== *)
(** ** Theorems: types.ts as TypeScript reads it *)
(* ===================================================================== *)

Section WireTheory.

Import Wire.

Lemma has_true (p : string) (T : JsValue -> bool) (v : JsValue) :
  has p T v = true <-> exists x, get v p = Some x /\ T x = true.
Proof.
  unfold has. destruct (get v p) as [x | ].
  - split; [eauto | by intros (? & [= <-] & ?)].
  - split; [done | by intros (? & ? & _)].
Qed.

Lemma literal_true (s : string) (v : JsValue) :
  literal s v = true <-> v = JString s.
Proof.
  destruct v; cbn; try (split; [done | discriminate]).
  rewrite bool_decide_eq_true. split; [by intros -> | by intros [= ->]].
Qed.

Lemma literal_boolean_true (b : bool) (v : JsValue) :
  literal_boolean b v = true <-> v = JBoolean b.
Proof.
  destruct v; cbn; try (split; [done | discriminate]).
  rewrite bool_decide_eq_true. split; [by intros -> | by intros [= ->]].
Qed.

Lemma string_type_true (v : JsValue) :
  string_type v = true <-> exists s, v = JString s.
Proof.
  destruct v; cbn; try (split; [done | by intros [? ?]]).
  split; eauto.
Qed.

Lemma number_type_true (v : JsValue) :
  number_type v = true <-> exists n, v = JNumber n.
Proof.
  destruct v; cbn; try (split; [done | by intros [? ?]]).
  split; eauto.
Qed.

(** A property that is a string literal is that string. *)
Lemma has_literal (p s : string) (v : JsValue) :
  has p (literal s) v = true <-> get v p = Some (JString s).
Proof.
  rewrite has_true. split.
  - intros (x & Hx & Hlit). apply literal_true in Hlit. by subst x.
  - intros Hx. exists (JString s). split; [done | by apply literal_true].
Qed.

Lemma has_literal_boolean (p : string) (b : bool) (v : JsValue) :
  has p (literal_boolean b) v = true <-> get v p = Some (JBoolean b).
Proof.
  rewrite has_true. split.
  - intros (x & Hx & Hlit). apply literal_boolean_true in Hlit. by subst x.
  - intros Hx. exists (JBoolean b).
    split; [done | by apply literal_boolean_true].
Qed.

Lemma has_string (p : string) (v : JsValue) :
  has p string_type v = true <-> exists s, get v p = Some (JString s).
Proof.
  rewrite has_true. split.
  - intros (x & Hx & [s ->]%string_type_true). eauto.
  - intros [s Hs]. exists (JString s). done.
Qed.

Lemma has_number (p : string) (v : JsValue) :
  has p number_type v = true <-> exists n, get v p = Some (JNumber n).
Proof.
  rewrite has_true. split.
  - intros (x & Hx & [n ->]%number_type_true). eauto.
  - intros [n Hn]. exists (JNumber n). done.
Qed.

(** A [SequenceValue] has a [value] and a [seq] that is a number. *)
Lemma SequenceValue_true (v : JsValue) :
  SequenceValue v = true <->
  exists x n, get v "value" = Some x /\ get v "seq" = Some (JNumber n).
Proof.
  unfold SequenceValue, SequenceNumber.
  rewrite andb_true_iff, has_true, has_number. split.
  - intros [(x & Hx & _) [n Hn]]. eauto.
  - intros (x & n & Hx & Hn). split; eauto.
Qed.


Lemma get_Some_object (v x : JsValue) (p : string) :
  get v p = Some x -> exists props, v = JObject props /\ props !! p = Some x.
Proof. destruct v; cbn; try discriminate. eauto. Qed.

(** A property that is read is among the fields. *)
Lemma get_fields (v x : JsValue) (p : string) :
  get v p = Some x -> p ∈ fields v.
Proof.
  intros (props & -> & Hp)%get_Some_object. cbn.
  apply elem_of_dom. eauto.
Qed.

(** The values of an [Array<SequenceValue>]. *)
Lemma Array_SequenceValue_true (items : list JsValue) :
  forallb SequenceValue items = true ->
  forall sv, In sv items ->
    exists x n, get sv "value" = Some x /\ get sv "seq" = Some (JNumber n).
Proof.
  rewrite forallb_forall. intros Hall sv Hsv.
  by apply SequenceValue_true, Hall.
Qed.

Lemma has_Array_SequenceValue (p : string) (v : JsValue) :
  has p (Array SequenceValue) v = true ->
  exists items, get v p = Some (JArray items) /\
    forall sv, In sv items ->
      exists x n, get sv "value" = Some x /\ get sv "seq" = Some (JNumber n).
Proof.
  rewrite has_true. intros (x & Hx & Harr).
  destruct x; try discriminate Harr. cbn in Harr.
  eexists. split; [exact Hx | by apply Array_SequenceValue_true].
Qed.

(** The four branches of [MessageFromDb], each with what it promises. *)
Lemma MessageFromDb_true (v : JsValue) :
  MessageFromDb v = true <->
  (get v "type" = Some (JString "push") /\
   exists key sv, get v "key" = Some (JString key) /\
     get v "value" = Some sv /\ SequenceValue sv = true) \/
  (get v "type" = Some (JString "init") /\
   exists key items, get v "key" = Some (JString key) /\
     get v "data" = Some (JArray items) /\
     forallb SequenceValue items = true) \/
  (get v "type" = Some (JString "error") /\
   exists message, get v "message" = Some (JString message)) \/
  (get v "type" = Some (JString "stream_size") /\
   exists key n, get v "key" = Some (JString key) /\
     get v "size" = Some (JNumber n)).
Proof.
  unfold MessageFromDb, Key.
  rewrite !orb_true_iff, !andb_true_iff, !has_literal, !has_string,
    !has_number, !has_true.
  split.
  - intros [[[[[Ht [k Hk]] (sv & Hsv & Hty)] | [[Ht (x & Hx & Harr)] [k Hk]]]
            | [Ht [msg Hmsg]]] | [[Ht [k Hk]] [n Hn]]].
    + left. eauto 10.
    + right; left. destruct x; try discriminate Harr. eauto 10.
    + right; right; left. eauto.
    + right; right; right. eauto 10.
  - intros [[Ht (k & sv & Hk & Hsv & Hty)]
           | [[Ht (k & items & Hk & Hd & Hall)]
           | [[Ht [msg Hmsg]] | [Ht (k & n & Hk & Hn)]]]].
    + left; left; left. eauto 10.
    + left; left; right. split; [split | ]; eauto.
    + left; right. eauto.
    + right. eauto 10.
Qed.

(** C4, as TypeScript has it: a server-to-client message bears exactly one
    of the tags [push], [init], [error] and [stream_size], and has at least
    the fields listed for its tag, of the listed shapes: a key and a value
    made of [value] and [seq]; a key and a list of such values; a message
    string; a key and a size. Further properties are not ruled out. *)
Theorem MessageFromDb_variants (v : JsValue) :
  MessageFromDb v = true ->
  length (List.filter (fun tag => has "type" (literal tag) v) from_types)
  = 1%nat /\
  (exists tag, In tag from_types /\ get v "type" = Some (JString tag) /\
     listed_fields tag ⊆ fields v) /\
  ((get v "type" = Some (JString "push") /\
    exists key sv x n,
      get v "key" = Some (JString key) /\ get v "value" = Some sv /\
      get sv "value" = Some x /\ get sv "seq" = Some (JNumber n)) \/
   (get v "type" = Some (JString "init") /\
    exists key items,
      get v "key" = Some (JString key) /\
      get v "data" = Some (JArray items) /\
      forall sv, In sv items ->
        exists x n, get sv "value" = Some x /\
          get sv "seq" = Some (JNumber n)) \/
   (get v "type" = Some (JString "error") /\
    exists message, get v "message" = Some (JString message)) \/
   (get v "type" = Some (JString "stream_size") /\
    exists key n,
      get v "key" = Some (JString key) /\ get v "size" = Some (JNumber n))).
Proof.
  intros Hv. apply MessageFromDb_true in Hv.
  assert (Hcount : forall tag, In tag from_types ->
            get v "type" = Some (JString tag) ->
            length (List.filter (fun t => has "type" (literal t) v) from_types)
            = 1%nat).
  { intros tag Htag Ht. unfold has. rewrite Ht.
    destruct Htag as [<- | [<- | [<- | [<- | []]]]]; reflexivity. }
  assert (Hsub : forall tag, get v "type" = Some (JString tag) ->
            (forall p, p ∈ listed_fields tag -> is_Some (get v p)) ->
            listed_fields tag ⊆ fields v).
  { intros tag Ht Hall p Hp. destruct (Hall p Hp) as [x Hx].
    by apply (get_fields v x). }
  destruct Hv as [[Ht (k & sv & Hk & Hsv & Hty)]
                 | [[Ht (k & items & Hk & Hd & Hall)]
                 | [[Ht [msg Hmsg]] | [Ht (k & n & Hk & Hn)]]]].
  - apply SequenceValue_true in Hty as (x & n & Hx & Hn).
    split_and!.
    + apply (Hcount "push"); [cbn; tauto | done].
    + exists "push". split_and!; [cbn; tauto | done | ].
      apply Hsub; [done | ]. intros p Hp. unfold listed_fields in Hp.
      repeat case_bool_decide; try done. set_unfold in Hp.
      destruct Hp as [[-> | ->] | ->]; eauto.
    + left. eauto 10.
  - split_and!.
    + apply (Hcount "init"); [cbn; tauto | done].
    + exists "init". split_and!; [cbn; tauto | done | ].
      apply Hsub; [done | ]. intros p Hp. unfold listed_fields in Hp.
      repeat case_bool_decide; try done. set_unfold in Hp.
      destruct Hp as [[-> | ->] | ->]; eauto.
    + right; left. split; [done | ]. exists k, items.
      split_and!; [done | done | by apply Array_SequenceValue_true].
  - split_and!.
    + apply (Hcount "error"); [cbn; tauto | done].
    + exists "error". split_and!; [cbn; tauto | done | ].
      apply Hsub; [done | ]. intros p Hp. unfold listed_fields in Hp.
      repeat case_bool_decide; try done. set_unfold in Hp.
      destruct Hp as [-> | ->]; eauto.
    + right; right; left. eauto.
  - split_and!.
    + apply (Hcount "stream_size"); [cbn; tauto | done].
    + exists "stream_size". split_and!; [cbn; tauto | done | ].
      apply Hsub; [done | ]. intros p Hp. unfold listed_fields in Hp.
      repeat case_bool_decide; try done. set_unfold in Hp.
      destruct Hp as [[-> | ->] | ->]; eauto.
    + right; right; right. eauto 10.
Qed.

(** C5, as TypeScript has it: a [SequenceNumber] is a number, that is a
    double, and nothing more. The [seq] of a [get], of a [compact] action,
    of a [SequenceValue], of a pushed value and of every backlog entry is a
    number; and every double whatever, negative or fractional, makes a
    well-typed [get] message and a well-typed [SequenceValue]. *)
Theorem SequenceNumber_is_any_number :
  (forall v, SequenceNumber v = true <-> exists n, v = JNumber n) /\
  (forall m, MessageToDb m = true ->
     get m "type" = Some (JString "get") ->
     exists n, get m "seq" = Some (JNumber n)) /\
  (forall a, Action a = true ->
     get a "type" = Some (JString "compact") ->
     exists n, get a "seq" = Some (JNumber n)) /\
  (forall sv, SequenceValue sv = true ->
     exists n, get sv "seq" = Some (JNumber n)) /\
  (forall m, MessageFromDb m = true ->
     get m "type" = Some (JString "push") ->
     exists sv n, get m "value" = Some sv /\
       get sv "seq" = Some (JNumber n)) /\
  (forall m, MessageFromDb m = true ->
     get m "type" = Some (JString "init") ->
     exists items, get m "data" = Some (JArray items) /\
       forall sv, In sv items -> exists n, get sv "seq" = Some (JNumber n)) /\
  (forall n : float,
     MessageToDb (get_doc n) = true /\ SequenceValue (x_at n) = true).
Proof.
  split_and!.
  - apply number_type_true.
  - intros m Hm Ht. unfold MessageToDb, SequenceNumber in Hm.
    rewrite !orb_true_iff, !andb_true_iff, !has_literal, !has_number in Hm.
    destruct Hm as [[[[Hpush _] _] _] | [_ Hseq]]; [congruence | exact Hseq].
  - intros a Ha Ht. unfold Action, SequenceNumber in Ha.
    rewrite !orb_true_iff, !andb_true_iff, !has_literal, !has_number,
      has_true in Ha.
    destruct Ha as [(x & Hx & Hlit) | [_ Hseq]]; [ | exact Hseq].
    rewrite Ht in Hx. injection Hx as <-. discriminate Hlit.
  - intros sv (x & n & _ & Hn)%SequenceValue_true. eauto.
  - intros m Hm Ht. apply MessageFromDb_true in Hm.
    destruct Hm as [[_ (k & sv & _ & Hsv & Hty)]
                   | [[Ht' _] | [[Ht' _] | [Ht' _]]]]; try congruence.
    apply SequenceValue_true in Hty as (x & n & _ & Hn). eauto.
  - intros m Hm Ht. apply MessageFromDb_true in Hm.
    destruct Hm as [[Ht' _]
                   | [[_ (k & items & _ & Hd & Hall)]
                   | [[Ht' _] | [Ht' _]]]]; try congruence.
    exists items. split; [exact Hd | ]. intros sv Hsv.
    destruct (Array_SequenceValue_true items Hall sv Hsv) as (x & n & _ & Hn).
    eauto.
  - intros n. split; reflexivity.
Qed.

(** C6, as TypeScript has it: a connection status has [connected: false],
    or it has [connected: true] and a [debugUrl] that is a string; these
    are the values of the type and there is no third value of [connected].
    Further properties are not ruled out. *)
Theorem ConnectionStatus_shapes (v : JsValue) :
  ConnectionStatus v = true <->
  get v "connected" = Some (JBoolean false) \/
  (get v "connected" = Some (JBoolean true) /\
   exists url, get v "debugUrl" = Some (JString url)).
Proof.
  unfold ConnectionStatus.
  by rewrite orb_true_iff, andb_true_iff, !has_literal_boolean, has_string.
Qed.

End WireTheory.

(** C4 as written fails: [{type: 'error', message: 'boom', code: 7}] is a
    [MessageFromDb], and [code] is not a field listed for [error]. *)
Lemma error_with_code_is_MessageFromDb :
  Wire.MessageFromDb Wire.error_with_code = true /\
  Wire.get Wire.error_with_code "type" = Some (Wire.JString "error") /\
  "code" ∈ Wire.fields Wire.error_with_code /\
  "code" ∉ Wire.listed_fields "error".
Proof.
  split_and!; [reflexivity | reflexivity | | ].
  - apply (get_fields _ (Wire.JNumber 7)). reflexivity.
  - unfold Wire.listed_fields. repeat case_bool_decide; try congruence.
    set_unfold. intros [Hc | Hc]; discriminate Hc.
Qed.

(** C5 as written fails: [{type: 'get', key: 'doc', seq: -1}] is a
    [MessageToDb] and -1 is a whole number below zero;
    [{value: 'x', seq: 1.5}] is a [SequenceValue] and 1.5 is above zero
    and not a whole number. *)
Lemma negative_and_fractional_seq :
  (Wire.MessageToDb (Wire.get_doc (-1)) = true /\
   Wire.get (Wire.get_doc (-1)) "seq" = Some (Wire.JNumber (-1)) /\
   Wire.is_integer (-1) = true /\
   Wire.nonnegative_integer (-1) = false) /\
  (Wire.SequenceValue (Wire.x_at 1.5) = true /\
   Wire.get (Wire.x_at 1.5) "seq" = Some (Wire.JNumber 1.5) /\
   PrimFloat.leb 0 1.5 = true /\
   Wire.nonnegative_integer 1.5 = false).
Proof. split; split_and!; reflexivity. Qed.

(** C6 as written fails: [{connected: false, debugUrl: '...'}] is a
    [ConnectionStatus] that has a field beside [connected]. *)
Lemma disconnected_with_url_is_ConnectionStatus :
  Wire.ConnectionStatus Wire.disconnected_with_url = true /\
  Wire.get Wire.disconnected_with_url "connected"
  = Some (Wire.JBoolean false) /\
  Wire.get Wire.disconnected_with_url "debugUrl"
  = Some (Wire.JString "https://debug.example") /\
  Wire.fields Wire.disconnected_with_url <> {["connected"]}.
Proof.
  split_and!; [reflexivity | reflexivity | reflexivity | ].
  intros Heq.
  assert (Hin : "debugUrl" ∈ Wire.fields Wire.disconnected_with_url).
  { apply (get_fields _ (Wire.JString "https://debug.example")).
    reflexivity. }
  rewrite Heq in Hin. set_solver.
Qed.

(** A pushed value, for which the theorem of C4 applies. *)
Lemma MessageFromDb_variants_witness :
  Wire.MessageFromDb Wire.push_doc = true /\
  length (List.filter (fun tag => Wire.has "type" (Wire.literal tag)
                                    Wire.push_doc) Wire.from_types)
  = 1%nat.
Proof.
  assert (H : Wire.MessageFromDb Wire.push_doc = true) by reflexivity.
  split; [exact H | ].
  exact (proj1 (MessageFromDb_variants Wire.push_doc H)).
Defined.

(** A [get] with a fractional sequence number. *)
Lemma SequenceNumber_is_any_number_witness :
  Wire.MessageToDb (Wire.get_doc 1.5) = true /\
  Wire.get (Wire.get_doc 1.5) "type" = Some (Wire.JString "get") /\
  exists n, Wire.get (Wire.get_doc 1.5) "seq" = Some (Wire.JNumber n).
Proof.
  assert (H : Wire.MessageToDb (Wire.get_doc 1.5) = true) by reflexivity.
  assert (Ht : Wire.get (Wire.get_doc 1.5) "type"
               = Some (Wire.JString "get")) by reflexivity.
  split_and!; [exact H | exact Ht | ].
  exact (proj1 (proj2 SequenceNumber_is_any_number) _ H Ht).
Defined.

(** The connected status, read through the theorem of C6. *)
Lemma ConnectionStatus_shapes_witness :
  Wire.ConnectionStatus Wire.connected_with_url = true /\
  (Wire.get Wire.connected_with_url "connected"
   = Some (Wire.JBoolean false) \/
   (Wire.get Wire.connected_with_url "connected"
    = Some (Wire.JBoolean true) /\
    exists url, Wire.get Wire.connected_with_url "debugUrl"
                = Some (Wire.JString url))).
Proof.
  assert (H : Wire.ConnectionStatus Wire.connected_with_url = true)
    by reflexivity.
  split; [exact H | ].
  exact (proj1 (ConnectionStatus_shapes Wire.connected_with_url) H).
Defined.

(* ===================================================================== *)
(** ** Theorems: the voxel reducer *)
(* ===================================================================== *)

Section VoxelTheory.

Import Voxel.

Context {number any : Type}.
Variable toString : number -> string.

Abbreviation record := (gmap string (Voxel number any)).

(** The location an allocation picks is not in use, so allocating leaves
    every object of the heap as it was. *)
Lemma alloc_spec (h : gmap loc record) (o : record) :
  h !! (alloc h o).2 = None /\
  (alloc h o).1 = <[(alloc h o).2 := o]> h /\
  h ⊆ (alloc h o).1.
Proof.
  unfold alloc; cbn.
  assert (Hfresh : h !! fresh (dom h) = None).
  { apply not_elem_of_dom, is_fresh. }
  split; [exact Hfresh | split; [reflexivity | ]].
  by apply insert_subseteq.
Qed.

(** The heap run computes [voxelReducer] of the record behind [state] into
    a fresh object and changes no object that was there. *)
Lemma voxelReducer_heap_spec (h : gmap loc record) (state : loc) (s : record)
  (action : VoxelAction number any) :
  h !! state = Some s ->
  exists h' r,
    voxelReducer_heap toString h state action = Some (h', r) /\
    h !! r = None /\
    h' = <[r := voxelReducer toString s action]> h /\
    h ⊆ h'.
Proof.
  intros Hs. unfold voxelReducer_heap.
  destruct action as [voxel | name]; rewrite Hs; cbn [mbind option_bind].
  - destruct (alloc_spec h (<[join toString ":" (position voxel) := voxel]> s))
      as (Hr & Hh & Hsub).
    destruct (alloc h _) as [h' r]; cbn in *. eauto 10.
  - destruct (alloc_spec h s) as (Hr & Hh & Hsub).
    destruct (alloc h s) as [h1 newState]; cbn in *. subst h1.
    eexists _, newState. split; [reflexivity | ]. split; [exact Hr | ].
    rewrite alter_insert_eq. split; [reflexivity | ].
    by apply insert_subseteq.
Qed.

(** C7: [voxelReducer] is a pure function of its two arguments. Two runs on
    equal records and equal actions, in whatever heaps and behind whatever
    references, both return, and return equal records; each run puts its
    result into a fresh object and leaves every object that existed, the
    input record among them, untouched. *)
Theorem voxelReducer_pure (h1 h2 : gmap loc record) (l1 l2 : loc)
  (s1 s2 : record) (a1 a2 : VoxelAction number any) :
  h1 !! l1 = Some s1 -> h2 !! l2 = Some s2 -> s1 = s2 -> a1 = a2 ->
  voxelReducer toString s1 a1 = voxelReducer toString s2 a2 /\
  exists h1' r1 h2' r2,
    voxelReducer_heap toString h1 l1 a1 = Some (h1', r1) /\
    voxelReducer_heap toString h2 l2 a2 = Some (h2', r2) /\
    h1' !! r1 = Some (voxelReducer toString s1 a1) /\
    h2' !! r2 = Some (voxelReducer toString s1 a1) /\
    h1 ⊆ h1' /\ h2 ⊆ h2' /\
    h1' !! l1 = Some s1 /\ h2' !! l2 = Some s2.
Proof.
  intros H1 H2 <- <-. split; [reflexivity | ].
  destruct (voxelReducer_heap_spec h1 l1 s1 a1 H1)
    as (h1' & r1 & E1 & F1 & -> & S1).
  destruct (voxelReducer_heap_spec h2 l2 s1 a1 H2)
    as (h2' & r2 & E2 & F2 & -> & S2).
  exists (<[r1 := voxelReducer toString s1 a1]> h1), r1,
    (<[r2 := voxelReducer toString s1 a1]> h2), r2.
  rewrite !lookup_insert_eq.
  repeat split; try done.
  - eapply lookup_weaken; [exact H1 | exact S1].
  - eapply lookup_weaken; [exact H2 | exact S2].
Qed.

(** C8: adding at an occupied position overwrites. An [add] of [v1] puts
    [v1] under the key of its position; an [add] of a voxel [v2] at the
    same position then puts [v2] there instead and leaves every other key
    as it was in [s], which is the state that the [add] of [v2] alone
    gives; so the same [add] twice is that [add] once. *)
Theorem add_last_writer_wins (s : record) (v1 v2 : Voxel number any) :
  position v1 = position v2 ->
  voxelReducer toString (voxelReducer toString s (add v1)) (add v2)
  = voxelReducer toString s (add v2) /\
  voxelReducer toString (voxelReducer toString s (add v2)) (add v2)
  = voxelReducer toString s (add v2) /\
  voxelReducer toString s (add v1) !! join toString ":" (position v1)
  = Some v1 /\
  voxelReducer toString (voxelReducer toString s (add v1)) (add v2)
    !! join toString ":" (position v1)
  = Some v2 /\
  (forall k, k <> join toString ":" (position v1) ->
     voxelReducer toString (voxelReducer toString s (add v1)) (add v2) !! k
     = s !! k).
Proof.
  intros Hpos. unfold voxelReducer. rewrite Hpos.
  split_and!.
  - apply insert_insert_eq.
  - apply insert_insert_eq.
  - apply lookup_insert_eq.
  - apply lookup_insert_eq.
  - intros k Hk. by rewrite !lookup_insert_ne.
Qed.

(** C9: a [remove] touches the named entry only. The result has no entry
    for [n], every other key maps to what it mapped to in [s], and when [s]
    has no entry for [n] the result is [s]. *)
Theorem remove_only_named (s : record) (n : string) :
  voxelReducer toString s (remove n) !! n = None /\
  (forall k, k <> n -> voxelReducer toString s (remove n) !! k = s !! k) /\
  (s !! n = None -> voxelReducer toString s (remove n) = s).
Proof.
  unfold voxelReducer. split; [apply lookup_delete_eq | split].
  - intros k Hk. by apply lookup_delete_ne.
  - intros Hn. by apply delete_id.
Qed.

(** C10: when the key of [v], its position joined by colons, is free in
    [s], an [add] of [v] followed by a [remove] of that key gives back [s]. *)
Theorem add_remove_roundtrip (s : record) (v : Voxel number any) :
  s !! join toString ":" (position v) = None ->
  voxelReducer toString (voxelReducer toString s (add v))
    (remove (join toString ":" (position v)))
  = s.
Proof.
  intros Hfree. unfold voxelReducer. rewrite delete_insert_eq.
  by apply delete_id.
Qed.

End VoxelTheory.

(** Two heaps that hold the same scene at different places, among other
    objects: both runs of an [add] agree. *)
Lemma voxelReducer_pure_witness :
  let a := Voxel.add Samples.red in
  Samples.heap1 !! 1%positive = Some Samples.scene /\
  Samples.heap2 !! 5%positive = Some Samples.scene /\
  exists h1' r1 h2' r2,
    Voxel.voxelReducer_heap Samples.toString Samples.heap1 1%positive a
      = Some (h1', r1) /\
    Voxel.voxelReducer_heap Samples.toString Samples.heap2 5%positive a
      = Some (h2', r2) /\
    h1' !! r1 = h2' !! r2.
Proof.
  cbv zeta.
  assert (H1 : Samples.heap1 !! 1%positive = Some Samples.scene)
    by (vm_compute; reflexivity).
  assert (H2 : Samples.heap2 !! 5%positive = Some Samples.scene)
    by (vm_compute; reflexivity).
  split; [exact H1 | split; [exact H2 | ]].
  destruct (voxelReducer_pure Samples.toString Samples.heap1 Samples.heap2
              1%positive 5%positive Samples.scene Samples.scene
              (Voxel.add Samples.red) (Voxel.add Samples.red)
              H1 H2 eq_refl eq_refl)
    as (_ & h1' & r1 & h2' & r2 & E1 & E2 & L1 & L2 & _).
  exists h1', r1, h2', r2. rewrite L1, L2. auto.
Defined.

(** The red voxel at the origin is replaced by the blue one. *)
Lemma add_last_writer_wins_witness :
  Voxel.position Samples.red = Voxel.position Samples.blue /\
  Voxel.voxelReducer Samples.toString
    (Voxel.voxelReducer Samples.toString Samples.scene
       (Voxel.add Samples.red))
    (Voxel.add Samples.blue)
  = Voxel.voxelReducer Samples.toString Samples.scene
      (Voxel.add Samples.blue) /\
  Voxel.voxelReducer Samples.toString
    (Voxel.voxelReducer Samples.toString Samples.scene
       (Voxel.add Samples.red))
    (Voxel.add Samples.blue) !! "0:0:0"
  = Some Samples.blue.
Proof.
  split; [reflexivity | ].
  destruct (add_last_writer_wins Samples.toString Samples.scene
              Samples.red Samples.blue eq_refl)
    as (Heq & _ & _ & Hblue & _).
  split; [exact Heq | exact Hblue].
Defined.

(** Removing a name the scene does not have keeps the scene. *)
Lemma remove_only_named_witness :
  Samples.scene !! "0:0:0" = None /\
  Voxel.voxelReducer Samples.toString Samples.scene (Voxel.remove "0:0:0")
  = Samples.scene.
Proof.
  assert (H : Samples.scene !! "0:0:0" = None) by (vm_compute; reflexivity).
  split; [exact H | ].
  exact (proj2 (proj2 (remove_only_named Samples.toString Samples.scene
                         "0:0:0")) H).
Defined.

(** The origin is free in the scene: adding the red voxel there and
    removing ["0:0:0"] gives the scene back. *)
Lemma add_remove_roundtrip_witness :
  Samples.scene !! Voxel.join Samples.toString ":" (Voxel.position Samples.red)
  = None /\
  Voxel.voxelReducer Samples.toString
    (Voxel.voxelReducer Samples.toString Samples.scene
       (Voxel.add Samples.red))
    (Voxel.remove "0:0:0")
  = Samples.scene.
Proof.
  assert (H : Samples.scene
                !! Voxel.join Samples.toString ":" (Voxel.position Samples.red)
              = None) by (vm_compute; reflexivity).
  split; [exact H | ].
  exact (add_remove_roundtrip Samples.toString Samples.scene Samples.red H).
Defined.

(* ===================================================================== *)
(** ** Theorems: the stream registry *)
(* ===================================================================== *)

Section RegistryTheory.

Import Types Registry.

Context {any State : Type}.
Variable reducer : State -> any -> State.
Variable initial : State.

Abbreviation SV := (SequenceValue any).
Abbreviation stream := (Stream any State).
Abbreviation wf := (wf_stream reducer initial).

(** *** Runs of consecutive numbers *)

Lemma consecutive_from_app (l1 l2 : list Z) : forall lo,
  consecutive_from lo (l1 ++ l2)
  = consecutive_from lo l1
    && consecutive_from (lo + Z.of_nat (length l1)) l2.
Proof.
  induction l1 as [ | x l1 IH]; intros lo; cbn [consecutive_from app length].
  - by rewrite Z.add_0_r.
  - rewrite IH, andb_assoc.
    by replace (lo + 1 + Z.of_nat (length l1))
         with (lo + Z.of_nat (S (length l1))) by lia.
Qed.

Lemma consecutive_from_seqZ (l : list Z) : forall lo,
  consecutive_from lo l = true -> l = seqZ lo (Z.of_nat (length l)).
Proof.
  induction l as [ | x l IH]; intros lo H; cbn [consecutive_from length] in *.
  - reflexivity.
  - apply andb_true_iff in H as [Hx Hl]. apply Z.eqb_eq in Hx. subst x.
    rewrite seqZ_cons by lia. f_equal.
    rewrite (IH _ Hl) at 1. f_equal; lia.
Qed.

Lemma consecutive_from_bounds (l : list Z) : forall lo x,
  consecutive_from lo l = true -> In x l ->
  lo <= x < lo + Z.of_nat (length l).
Proof.
  intros lo x H Hx. rewrite (consecutive_from_seqZ l lo H) in Hx.
  apply list_elem_of_In, elem_of_seqZ in Hx. exact Hx.
Qed.

(** *** The ordered buffer *)

Lemma forallb_insert_pending (P : SV -> bool) (v : SV) (l : list SV) :
  forallb P (insert_pending v l) = P v && forallb P l.
Proof.
  induction l as [ | b l IH]; cbn [insert_pending forallb].
  - reflexivity.
  - destruct (seq v <? seq b); cbn [forallb]; [reflexivity | ].
    rewrite IH. destruct (P v), (P b); reflexivity.
Qed.

Lemma insert_pending_perm (v : SV) (l : list SV) :
  insert_pending v l ≡ₚ v :: l.
Proof.
  induction l as [ | b l IH]; cbn [insert_pending]; [reflexivity | ].
  destruct (seq v <? seq b); [reflexivity | ].
  rewrite IH. apply Permutation_swap.
Qed.

Lemma forallb_le_trans (x y : Z) (l : list SV) :
  x <= y ->
  forallb (fun b => y <=? seq b) l = true ->
  forallb (fun b => x <=? seq b) l = true.
Proof.
  intros Hxy H. rewrite forallb_forall in *. intros b Hb.
  specialize (H b Hb). lia.
Qed.

Lemma insert_pending_ascending (v : SV) (l : list SV) :
  ascending l = true -> ascending (insert_pending v l) = true.
Proof.
  induction l as [ | b l IH]; cbn [insert_pending ascending forallb].
  - reflexivity.
  - intros H. apply andb_true_iff in H as [Hb Hl].
    destruct (Z.ltb_spec (seq v) (seq b)) as [Hlt | Hge];
      cbn [ascending forallb].
    + rewrite Hb, Hl, (forallb_le_trans (seq v) (seq b)) by (exact Hb || lia).
      rewrite !andb_true_r. lia.
    + rewrite forallb_insert_pending, Hb, IH by exact Hl.
      rewrite !andb_true_r. lia.
Qed.

Lemma ascending_last (l : list SV) (v z : SV) :
  ascending l = true -> In v l -> last l = Some z -> seq v <= seq z.
Proof.
  induction l as [ | a l IH]; intros Hasc Hv Hz; [destruct Hv | ].
  cbn [ascending] in Hasc. apply andb_true_iff in Hasc as [Ha Hl].
  rewrite forallb_forall in Ha.
  destruct l as [ | a' l'].
  - cbn in Hz. injection Hz as <-. destruct Hv as [<- | []]. lia.
  - rewrite last_cons_cons in Hz.
    destruct Hv as [<- | Hv]; [ | by apply IH].
    assert (Hzl : In z (a' :: l')).
    { apply list_elem_of_In, last_Some_elem_of. exact Hz. }
    specialize (Ha z Hzl). lia.
Qed.

(** *** Draining the buffer *)

(** What a drain of an ordered buffer does: it applies a run [d] of
    buffered values that carry the next numbers, in that order, and leaves
    an ordered rest that starts beyond the next number; an entry of the
    buffer is either in that rest or not above the new highest number. *)
Lemma drain_spec (buffered : list SV) : forall st : stream,
  ascending buffered = true ->
  exists d,
    sublist d buffered /\
    values (drain reducer st buffered) = values st ++ d /\
    consecutive_from (highest_seen st + 1) (seq <$> d) = true /\
    highest_seen (drain reducer st buffered)
      = highest_seen st + Z.of_nat (length d) /\
    state (drain reducer st buffered) = replay reducer d (state st) /\
    subscribers (drain reducer st buffered) = subscribers st /\
    ascending (pending (drain reducer st buffered)) = true /\
    forallb (fun b => highest_seen (drain reducer st buffered) + 1 <? seq b)
      (pending (drain reducer st buffered)) = true /\
    (forall b, In b buffered ->
       In b (pending (drain reducer st buffered)) \/
       seq b <= highest_seen (drain reducer st buffered)).
Proof.
  induction buffered as [ | b rest IH]; intros st Hasc.
  - exists []. cbn. split_and!; try done.
    + by rewrite app_nil_r.
    + lia.
  - cbn [ascending] in Hasc. apply andb_true_iff in Hasc as [Hb Hrest].
    cbn [drain].
    destruct (Z.eqb_spec (seq b) (highest_seen st + 1)) as [Hnext | Hnot].
    + destruct (IH (apply_value reducer b st) Hrest)
        as (d & Hsub & Hval & Hcons & Hhs & Hst & Hsubs & Hasc' & Hpend & Hkeep).
      cbn [apply_value highest_seen values state subscribers] in Hval, Hcons,
        Hhs, Hst, Hsubs.
      exists (b :: d). split_and!.
      * by apply sublist_skip.
      * by rewrite Hval, <- app_assoc.
      * cbn [fmap list_fmap consecutive_from].
        rewrite <- Hnext, Z.eqb_refl. exact Hcons.
      * rewrite Hhs. cbn [length]. lia.
      * rewrite Hst. reflexivity.
      * exact Hsubs.
      * exact Hasc'.
      * exact Hpend.
      * intros x [<- | Hx]; [right; rewrite Hhs; lia | exact (Hkeep x Hx)].
    + destruct (Z.leb_spec (seq b) (highest_seen st)) as [Hold | Hfar].
      * destruct (IH st Hrest)
          as (d & Hsub & Hval & Hcons & Hhs & Hst & Hsubs & Hasc' & Hpend & Hkeep).
        exists d. split_and!; try done.
        -- by apply sublist_cons.
        -- intros x [<- | Hx]; [right; rewrite Hhs; lia | exact (Hkeep x Hx)].
      * exists []. cbn [highest_seen values state subscribers pending].
        split_and!; try done.
        -- apply sublist_nil_l.
        -- by rewrite app_nil_r.
        -- cbn [length]. lia.
        -- cbn [ascending]. by rewrite Hb, Hrest.
        -- cbn [forallb]. apply andb_true_iff. split; [lia | ].
           rewrite forallb_forall in *. intros x Hx.
           specialize (Hb x Hx). lia.
        -- intros x Hx. by left.
Qed.

(** *** One push *)

(** [push_stream] keeps a stream well formed. *)
Lemma push_stream_wf (key : Key) (v : SV) (st : stream) :
  wf st -> wf (push_stream reducer key v st).1.
Proof.
  intros [Hval Hstate Hasc Hpend]. unfold push_stream.
  destruct (Z.eqb_spec (seq v) (highest_seen st + 1)) as [Hnext | Hnot].
  - cbn [fst].
    destruct (drain_spec (pending st) (apply_value reducer v st) Hasc)
      as (d & Hsub & Hval' & Hcons & Hhs & Hst & Hsubs & Hasc' & Hpend' & Hkeep).
    cbn [apply_value highest_seen values state subscribers] in Hval', Hcons,
      Hhs, Hst, Hsubs.
    split; [ | | exact Hasc' | exact Hpend'].
    + rewrite Hval', Hhs, <- app_assoc, fmap_app, !length_app.
      cbn [fmap list_fmap length app].
      rewrite consecutive_from_app, length_fmap. cbn [consecutive_from].
      match goal with
      | |- consecutive_from ?lo _ && _ = true =>
          replace lo
            with (highest_seen st - Z.of_nat (length (values st)) + 1) by lia
      end.
      rewrite Hval. cbn [andb].
      apply andb_true_iff. split; [lia | ].
      rewrite <- Hcons. f_equal. lia.
    + rewrite Hst, Hval', Hstate. unfold replay.
      rewrite !fold_left_app. reflexivity.
  - destruct (Z.leb_spec (seq v) (highest_seen st)) as [Hold | Hfar];
      cbn [fst]; [by split | ].
    split; cbn [highest_seen values state pending]; try done.
    + by apply insert_pending_ascending.
    + rewrite forallb_insert_pending, Hpend. apply andb_true_iff.
      split; [lia | reflexivity].
Qed.

(** A value that does not carry the next number and is not old opens a
    gap: it goes into the buffer and the missing range is asked for. *)
Lemma push_stream_gap (key : Key) (v : SV) (st : stream) :
  highest_seen st + 1 < seq v ->
  push_stream reducer key v st
  = ({| highest_seen := highest_seen st;
        pending := insert_pending v (pending st);
        values := values st; state := state st;
        subscribers := subscribers st |},
     [ToGet key (highest_seen st + 1)]).
Proof.
  intros H. unfold push_stream.
  destruct (Z.eqb_spec (seq v) (highest_seen st + 1)); [lia | ].
  destruct (Z.leb_spec (seq v) (highest_seen st)); [lia | reflexivity].
Qed.

Lemma push_stream_old (key : Key) (v : SV) (st : stream) :
  seq v <= highest_seen st -> push_stream reducer key v st = (st, []).
Proof.
  intros H. unfold push_stream.
  destruct (Z.eqb_spec (seq v) (highest_seen st + 1)); [lia | ].
  destruct (Z.leb_spec (seq v) (highest_seen st)); [reflexivity | lia].
Qed.

(** In a well-formed stream no number is applied twice, and a buffered
    value lies beyond the gap and has not been applied. *)
Lemma wf_stream_facts (st : stream) :
  wf st ->
  NoDup (seq <$> values st) /\
  (forall b, In b (pending st) ->
     highest_seen st + 1 < seq b /\ ~ In (seq b) (seq <$> values st)).
Proof.
  intros [Hval Hstate Hasc Hpend]. split.
  - rewrite (consecutive_from_seqZ _ _ Hval). apply NoDup_seqZ.
  - intros b Hb. rewrite forallb_forall in Hpend. specialize (Hpend b Hb).
    split; [lia | ]. intros Hin.
    apply (consecutive_from_bounds _ _ _ Hval) in Hin.
    rewrite length_fmap in Hin. lia.
Qed.

(** *** Reachable streams are well formed *)

Lemma new_stream_wf : wf (new_stream initial).
Proof. by split. Qed.

Lemma onPush_wf (key : Key) (v : SV) (r : gmap Key stream) :
  map_Forall (fun _ st => wf st) r ->
  map_Forall (fun _ st => wf st) (onPush reducer key v r).1.
Proof.
  intros Hr. unfold onPush. destruct (r !! key) as [st | ] eqn:Hkey.
  - pose proof (push_stream_wf key v st (Hr key st Hkey)) as Hwf.
    destruct (push_stream reducer key v st) as [st' out]. cbn [fst] in *.
    by apply map_Forall_insert_2.
  - exact Hr.
Qed.

Lemma onPushes_wf (key : Key) (vs : list SV) : forall r : gmap Key stream,
  map_Forall (fun _ st => wf st) r ->
  map_Forall (fun _ st => wf st) (onPushes reducer key vs r).1.
Proof.
  induction vs as [ | v vs IH]; intros r Hr; cbn [onPushes]; [exact Hr | ].
  pose proof (onPush_wf key v r Hr) as H1.
  destruct (onPush reducer key v r) as [r1 out1]. cbn [fst] in H1.
  specialize (IH r1 H1).
  by destruct (onPushes reducer key vs r1) as [r2 out2].
Qed.

(** *** One push, on any stream with an ordered buffer *)

(** What [push_stream] does, with no assumption on the stream but the
    order of its buffer: it appends a run [applied] of values to the value
    sequence, numbered consecutively from the next number on. *)
Lemma push_stream_run (key : Key) (v : SV) (st : stream) :
  ascending (pending st) = true ->
  exists applied,
    values (push_stream reducer key v st).1 = values st ++ applied /\
    state (push_stream reducer key v st).1
      = replay reducer applied (state st) /\
    consecutive_from (highest_seen st + 1) (seq <$> applied) = true /\
    highest_seen (push_stream reducer key v st).1
      = highest_seen st + Z.of_nat (length applied) /\
    ascending (pending (push_stream reducer key v st).1) = true /\
    (seq v = highest_seen st + 1 ->
       (push_stream reducer key v st).2 = [] /\
       exists d, applied = v :: d /\ sublist d (pending st) /\
         forallb
           (fun b => highest_seen (push_stream reducer key v st).1 + 1
                     <? seq b)
           (pending (push_stream reducer key v st).1) = true) /\
    (seq v <= highest_seen st ->
       push_stream reducer key v st = (st, []) /\ applied = []) /\
    (highest_seen st + 1 < seq v ->
       (push_stream reducer key v st).2
         = [ToGet key (highest_seen st + 1)] /\
       applied = [] /\
       pending (push_stream reducer key v st).1
         = insert_pending v (pending st)) /\
    (forall b, In b (pending st) ->
       In b (pending (push_stream reducer key v st).1) \/
       seq b <= highest_seen (push_stream reducer key v st).1).
Proof.
  intros Hasc.
  destruct (Z.lt_trichotomy (seq v) (highest_seen st + 1))
    as [Hold | [Hnext | Hfar]].
  - rewrite (push_stream_old key v st) by lia. cbn [fst snd].
    exists []. rewrite app_nil_r. cbn [length fmap list_fmap].
    split_and!; try done; try lia.
    intros b Hb. by left.
  - unfold push_stream. rewrite <- Hnext, Z.eqb_refl. cbn [fst snd].
    destruct (drain_spec (pending st) (apply_value reducer v st) Hasc)
      as (d & Hsub & Hval & Hcons & Hhs & Hst & Hsubs & Hasc' & Hpend & Hkeep).
    cbn [apply_value highest_seen values state subscribers] in Hval, Hcons,
      Hhs, Hst, Hsubs.
    exists (v :: d). split_and!.
    + by rewrite Hval, <- app_assoc.
    + rewrite Hst. reflexivity.
    + cbn [fmap list_fmap consecutive_from]. by rewrite Z.eqb_refl.
    + rewrite Hhs. cbn [length]. lia.
    + exact Hasc'.
    + intros _. split; [reflexivity | ]. exists d. by split_and!.
    + lia.
    + lia.
    + exact Hkeep.
  - rewrite (push_stream_gap key v st Hfar).
    cbn [fst snd highest_seen values state pending].
    exists []. rewrite app_nil_r. cbn [length fmap list_fmap].
    split_and!; try done; try lia.
    + by apply insert_pending_ascending.
    + intros b Hb. left. apply list_elem_of_In.
      rewrite insert_pending_perm. apply list_elem_of_In. by right.
Qed.

(** A run of values numbered from the next number on keeps the value
    sequence free of repeated numbers and below the highest seen one. *)
Lemma applied_once_app (st st' : stream) (applied : list SV) :
  applied_once st ->
  values st' = values st ++ applied ->
  consecutive_from (highest_seen st + 1) (seq <$> applied) = true ->
  highest_seen st' = highest_seen st + Z.of_nat (length applied) ->
  applied_once st'.
Proof.
  intros [Hbound Hnodup] Hval Hcons Hhs.
  rewrite forallb_forall in Hbound.
  assert (Hrange : forall a, In a applied ->
            highest_seen st + 1 <= seq a
            < highest_seen st + 1 + Z.of_nat (length applied)).
  { intros a Ha.
    rewrite <- (length_fmap seq applied).
    apply (consecutive_from_bounds _ _ _ Hcons), in_map, Ha. }
  split.
  - rewrite Hval, Hhs, forallb_app. apply andb_true_iff. split.
    + apply forallb_forall. intros a Ha. specialize (Hbound a Ha). lia.
    + apply forallb_forall. intros a Ha. specialize (Hrange a Ha). lia.
  - rewrite Hval, fmap_app. apply NoDup_app. split_and!.
    + exact Hnodup.
    + intros x Hx Hx'.
      apply list_elem_of_In, in_map_iff in Hx as (a & <- & Ha).
      apply list_elem_of_In, in_map_iff in Hx' as (a' & Heq & Ha').
      specialize (Hbound a Ha). specialize (Hrange a' Ha'). lia.
    + rewrite (consecutive_from_seqZ _ _ Hcons). apply NoDup_seqZ.
Qed.

(** *** Every reachable stream *)

Lemma push_stream_ordered (key : Key) (v : SV) (st : stream) :
  ordered st -> ordered (push_stream reducer key v st).1.
Proof.
  intros Hord. destruct (push_stream_run key v st Hord)
    as (applied & _ & _ & _ & _ & Hasc & _). exact Hasc.
Qed.

Lemma push_stream_applied_once (key : Key) (v : SV) (st : stream) :
  ordered st -> applied_once st ->
  applied_once (push_stream reducer key v st).1.
Proof.
  intros Hord Honce. destruct (push_stream_run key v st Hord)
    as (applied & Hval & _ & Hcons & Hhs & _).
  by apply (applied_once_app st _ applied).
Qed.

(** An [init] leaves the buffer as it is, for any backlog. *)
Lemma init_stream_ordered (backlog : list SV) (st : stream) :
  ordered st -> ordered (init_stream reducer initial backlog st).
Proof. done. Qed.

(** An [init] with a backlog under the server's contract gives a value
    sequence without a repeated number, whatever the stream was. *)
Lemma init_stream_applied_once (backlog : list SV) (st : stream) :
  sorted_backlog backlog ->
  applied_once (init_stream reducer initial backlog st).
Proof.
  intros [Hasc Hnodup]. split; cbn [init_stream values highest_seen];
    [ | exact Hnodup].
  apply forallb_forall. intros a Ha.
  destruct (last backlog) as [z | ] eqn:Hlast.
  - cbn. pose proof (ascending_last backlog a z Hasc Ha Hlast). lia.
  - apply last_None in Hlast. subst backlog. destruct Ha.
Qed.

Lemma new_stream_reachable :
  ordered (new_stream (any := any) initial) /\
  applied_once (new_stream (any := any) initial).
Proof. split; [done | ]. split; [done | constructor]. Qed.

(** Whatever is delivered, every stream of the registry keeps an ordered
    buffer. *)
Lemma deliver_ordered (ds : list (delivery any)) :
  forall r : gmap Key stream,
  map_Forall (fun _ (st : stream) => ordered st) r ->
  map_Forall (fun _ (st : stream) => ordered st)
    (deliver reducer initial ds r).1.
Proof.
  induction ds as [ | [key backlog | key v] ds IH]; intros r Hr;
    cbn [deliver].
  - exact Hr.
  - apply IH. unfold onInit. destruct (r !! key) as [st | ] eqn:Hkey;
      [ | exact Hr].
    apply map_Forall_insert_2; [ | exact Hr].
    apply init_stream_ordered, (Hr key st Hkey).
  - assert (H1 : map_Forall (fun _ (st : stream) => ordered st)
                   (onPush reducer key v r).1).
    { unfold onPush. destruct (r !! key) as [st | ] eqn:Hkey; [ | exact Hr].
      pose proof (push_stream_ordered key v st (Hr key st Hkey)) as Hord.
      destruct (push_stream reducer key v st) as [st' out].
      by apply map_Forall_insert_2. }
    destruct (onPush reducer key v r) as [r1 out1]. cbn [fst] in H1.
    specialize (IH r1 H1).
    by destruct (deliver reducer initial ds r1) as [r2 out2].
Qed.

(** When the backlogs delivered are under the server's contract, every
    stream of the registry keeps, besides, a value sequence without a
    repeated number. *)
Lemma deliver_applied_once (ds : list (delivery any)) :
  Forall contract ds ->
  forall r : gmap Key stream,
  map_Forall (fun _ (st : stream) => ordered st /\ applied_once st) r ->
  map_Forall (fun _ (st : stream) => ordered st /\ applied_once st)
    (deliver reducer initial ds r).1.
Proof.
  induction ds as [ | [key backlog | key v] ds IH]; intros Hds r Hr;
    cbn [deliver]; [exact Hr | | ];
    apply Forall_cons in Hds as [Hd Hds].
  - apply (IH Hds). unfold onInit.
    destruct (r !! key) as [st | ] eqn:Hkey; [ | exact Hr].
    apply map_Forall_insert_2; [ | exact Hr]. split.
    + apply init_stream_ordered, (Hr key st Hkey).
    + by apply init_stream_applied_once.
  - assert (H1 : map_Forall
                   (fun _ (st : stream) => ordered st /\ applied_once st)
                   (onPush reducer key v r).1).
    { unfold onPush. destruct (r !! key) as [st | ] eqn:Hkey; [ | exact Hr].
      destruct (Hr key st Hkey) as [Hord Honce].
      pose proof (push_stream_ordered key v st Hord) as Hord'.
      pose proof (push_stream_applied_once key v st Hord Honce) as Honce'.
      destruct (push_stream reducer key v st) as [st' out].
      by apply map_Forall_insert_2. }
    destruct (onPush reducer key v r) as [r1 out1]. cbn [fst] in H1.
    specialize (IH Hds r1 H1).
    by destruct (deliver reducer initial ds r1) as [r2 out2].
Qed.

(** *** The claims *)

(** C2: [onPush] splits on the value's number against the highest seen
    one, on every stream with an ordered buffer, which is every stream the
    registry can hold, after an [init] too. The push appends a run
    [applied] to the value sequence and folds it into the reducer state;
    the run is numbered consecutively from the next number on, so it is in
    increasing order, closes the gap before it goes beyond it, and brings
    back no number at or below the highest seen one. The next number: the
    run is the value followed by buffered values, nothing is sent, and what
    stays buffered lies beyond a gap. An old number: the registry is
    unchanged and nothing is sent. A number beyond the next: the run is
    empty, the value joins the buffer, and [get(key, highest_seen + 1)] is
    sent. A value buffered before is still buffered, or its number is old,
    or its number is in the run. A value sequence without a repeated number
    stays so; and a well-formed stream stays well formed, with no buffered
    value applied. *)
Theorem onPush_case_split (key : Key) (v : SV) (r : gmap Key stream)
  (st : stream) :
  r !! key = Some st -> ascending (pending st) = true ->
  exists st' out applied,
    onPush reducer key v r = (<[key := st']> r, out) /\
    ascending (pending st') = true /\
    values st' = values st ++ applied /\
    state st' = replay reducer applied (state st) /\
    seq <$> applied
      = seqZ (highest_seen st + 1) (Z.of_nat (length applied)) /\
    highest_seen st' = highest_seen st + Z.of_nat (length applied) /\
    (seq v = highest_seen st + 1 ->
       out = [] /\
       exists d, applied = v :: d /\ sublist d (pending st) /\
         forall b, In b (pending st') -> highest_seen st' + 1 < seq b) /\
    (seq v <= highest_seen st ->
       st' = st /\ out = [] /\ applied = [] /\ <[key := st']> r = r) /\
    (highest_seen st + 1 < seq v ->
       out = [ToGet key (highest_seen st + 1)] /\
       applied = [] /\
       pending st' ≡ₚ v :: pending st) /\
    (forall b, In b (pending st) ->
       In b (pending st') \/ seq b <= highest_seen st \/
       In (seq b) (seq <$> applied)) /\
    (applied_once st -> applied_once st') /\
    (wf st ->
       wf st' /\
       NoDup (seq <$> values st') /\
       (forall b, In b (pending st') ->
          highest_seen st' + 1 < seq b /\
          ~ In (seq b) (seq <$> values st')) /\
       (forall b, In b (pending st) ->
          In b (pending st') \/ In (seq b) (seq <$> values st'))).
Proof.
  intros Hkey Hasc.
  destruct (push_stream_run key v st Hasc)
    as (applied & Hval & Hst & Hcons & Hhs & Hasc' & Hnext & Hold & Hfar
        & Hkeep).
  assert (Hrun : seq <$> applied
                 = seqZ (highest_seen st + 1) (Z.of_nat (length applied))).
  { rewrite <- (length_fmap seq applied).
    by apply consecutive_from_seqZ. }
  assert (Hkeep' : forall b, In b (pending st) ->
            In b (pending (push_stream reducer key v st).1) \/
            seq b <= highest_seen st \/ In (seq b) (seq <$> applied)).
  { intros b Hb. destruct (Hkeep b Hb) as [Hin | Hle]; [by left | right].
    destruct (Z.le_gt_cases (seq b) (highest_seen st)) as [Hle' | Hgt];
      [by left | right].
    rewrite Hrun. apply list_elem_of_In, elem_of_seqZ. lia. }
  exists (push_stream reducer key v st).1, (push_stream reducer key v st).2,
    applied.
  split_and!; try done.
  - unfold onPush. rewrite Hkey.
    by destruct (push_stream reducer key v st).
  - intros Hv. destruct (Hnext Hv) as (Hout & d & -> & Hsub & Hpend).
    split; [exact Hout | ]. exists d. split_and!; try done.
    intros b Hb. rewrite forallb_forall in Hpend.
    specialize (Hpend b Hb). lia.
  - intros Hv. destruct (Hold Hv) as [Heq ->]. rewrite Heq. cbn [fst snd].
    split_and!; try done. by apply insert_id.
  - intros Hv. destruct (Hfar Hv) as (Hout & -> & Hpend).
    split_and!; try done. rewrite Hpend. apply insert_pending_perm.
  - intros Honce. by apply (applied_once_app st _ applied).
  - intros Hwf. pose proof (push_stream_wf key v st Hwf) as Hwf'.
    destruct (wf_stream_facts _ Hwf') as [Hnodup Hbuf].
    split_and!; try done.
    intros b Hb. destruct (Hkeep' b Hb) as [Hin | [Hle | Hin]].
    + by left.
    + destruct Hwf as [_ _ _ Hpend]. rewrite forallb_forall in Hpend.
      specialize (Hpend b Hb). lia.
    + right. rewrite Hval, fmap_app. apply in_or_app. by right.
Qed.

(** C3: an [init] backlog delivered twice for a key leaves the registry as
    one delivery leaves it. The stream's value sequence is then the backlog
    and its reducer state the fold of the backlog from the initial state,
    every value once; a backlog without a repeated number gives a value
    sequence without one; and a value of an ordered backlog that arrives
    again as a push is dropped. *)
Theorem onInit_twice (key : Key) (backlog : list SV) (r : gmap Key stream) :
  onInit reducer initial key backlog (onInit reducer initial key backlog r)
  = onInit reducer initial key backlog r /\
  (forall st, r !! key = Some st ->
     exists st',
       onInit reducer initial key backlog
         (onInit reducer initial key backlog r) !! key = Some st' /\
       values st' = backlog /\
       state st' = replay reducer backlog initial /\
       highest_seen st' = default 0 (seq <$> last backlog) /\
       pending st' = pending st /\
       (NoDup (seq <$> backlog) -> NoDup (seq <$> values st'))) /\
  (ascending backlog = true ->
   forall v, In v backlog ->
     onPush reducer key v (onInit reducer initial key backlog r)
     = (onInit reducer initial key backlog r, [])).
Proof.
  assert (Hidem : onInit reducer initial key backlog
                    (onInit reducer initial key backlog r)
                  = onInit reducer initial key backlog r).
  { unfold onInit. destruct (r !! key) as [st | ] eqn:Hkey.
    - rewrite lookup_insert_eq, insert_insert_eq. reflexivity.
    - by rewrite Hkey. }
  split_and!.
  - exact Hidem.
  - intros st Hkey. rewrite Hidem. unfold onInit. rewrite Hkey.
    exists (init_stream reducer initial backlog st).
    rewrite lookup_insert_eq. by split_and!.
  - intros Hasc v Hv. unfold onPush, onInit.
    destruct (r !! key) as [st | ] eqn:Hkey; [ | by rewrite Hkey].
    rewrite lookup_insert_eq, push_stream_old.
    + by rewrite insert_insert_eq.
    + cbn [init_stream highest_seen].
      destruct (last backlog) as [z | ] eqn:Hlast.
      * cbn. by apply (ascending_last backlog).
      * apply last_None in Hlast. subst backlog. destruct Hv.
Qed.

End RegistryTheory.

(** The stream of ["doc"] after a resynchronization with the backlog 1 to
    5 still buffers number 6; the push of another value numbered 6 falls
    under the theorem of C2. *)
Lemma onPush_case_split_witness :
  RegistrySamples.resynced_registry !! "doc"
  = Some RegistrySamples.resynced_stream /\
  Registry.ascending (Registry.pending RegistrySamples.resynced_stream)
  = true /\
  exists st' out applied,
    Registry.onPush Samples.log_reducer "doc" (Samples.sv 6 "g")
      RegistrySamples.resynced_registry
    = (<["doc" := st']> RegistrySamples.resynced_registry, out) /\
    Registry.values st'
    = Registry.values RegistrySamples.resynced_stream ++ applied.
Proof.
  assert (Hkey : RegistrySamples.resynced_registry !! "doc"
                 = Some RegistrySamples.resynced_stream)
    by (vm_compute; reflexivity).
  assert (Hasc : Registry.ascending
                   (Registry.pending RegistrySamples.resynced_stream)
                 = true) by reflexivity.
  split; [exact Hkey | split; [exact Hasc | ]].
  destruct (onPush_case_split Samples.log_reducer [] "doc"
              (Samples.sv 6 "g") RegistrySamples.resynced_registry
              RegistrySamples.resynced_stream Hkey Hasc)
    as (st' & out & applied & Hrun & _ & Hval & _).
  exists st', out, applied. split; [exact Hrun | exact Hval].
Defined.

(** The backlog 1, 2, 3 delivered twice to the stream of ["doc"], and its
    second value pushed again afterwards. *)
Lemma onInit_twice_witness :
  Samples.gap_registry !! "doc" = Some Samples.gap_stream /\
  Registry.ascending Samples.backlog3 = true /\
  In (Samples.sv 2 "b") Samples.backlog3 /\
  Registry.onInit Samples.log_reducer [] "doc" Samples.backlog3
    (Registry.onInit Samples.log_reducer [] "doc" Samples.backlog3
       Samples.gap_registry)
  = Registry.onInit Samples.log_reducer [] "doc" Samples.backlog3
      Samples.gap_registry /\
  Registry.onPush Samples.log_reducer "doc" (Samples.sv 2 "b")
    (Registry.onInit Samples.log_reducer [] "doc" Samples.backlog3
       Samples.gap_registry)
  = (Registry.onInit Samples.log_reducer [] "doc" Samples.backlog3
       Samples.gap_registry, []).
Proof.
  assert (Hkey : Samples.gap_registry !! "doc" = Some Samples.gap_stream)
    by (vm_compute; reflexivity).
  assert (Hasc : Registry.ascending Samples.backlog3 = true) by reflexivity.
  assert (Hin : In (Samples.sv 2 "b") Samples.backlog3)
    by (right; left; reflexivity).
  destruct (onInit_twice Samples.log_reducer [] "doc" Samples.backlog3
              Samples.gap_registry) as (Hidem & _ & Hpush).
  split_and!; [exact Hkey | exact Hasc | exact Hin | exact Hidem | ].
  exact (Hpush Hasc (Samples.sv 2 "b") Hin).
Defined.

(** A resynchronization in between: after the [init] with 1 to 5 the
    stream still buffers the old number 6; a push of number 6 is applied,
    the buffered 6 is dropped as a duplicate, and nothing is sent. *)
Example resync_then_push :
  Registry.deliver Samples.log_reducer []
    [Registry.Init "doc" RegistrySamples.backlog5;
     Registry.Push "doc" (Samples.sv 6 "g")]
    Samples.gap_registry
  = (<["doc" :=
        Registry.mkStream 6 []
          [Samples.sv 1 "a"; Samples.sv 2 "b"; Samples.sv 3 "c";
           Samples.sv 4 "d"; Samples.sv 5 "e"; Samples.sv 6 "g"]
          ["a"; "b"; "c"; "d"; "e"; "g"] 1]> ∅,
     []).
Proof. vm_compute. reflexivity. Qed.

(** The gap scenario run through: after 1, 2, 3 the push of 6 is buffered
    and [get("doc", 4)] goes out; 4 and 5 then bring 4, 5 and 6 into the
    log in that order, each once, and nothing more is sent. *)
Example gap_recovery :
  Registry.onPushes Samples.log_reducer "doc"
    [Samples.sv 1 "a"; Samples.sv 2 "b"; Samples.sv 3 "c"; Samples.sv 6 "f"]
    Samples.fresh_registry
  = (Samples.gap_registry, [Types.ToGet "doc" 4]) /\
  Registry.onPushes Samples.log_reducer "doc"
    [Samples.sv 4 "d"; Samples.sv 5 "e"] Samples.gap_registry
  = (<["doc" :=
        Registry.mkStream 6 []
          [Samples.sv 1 "a"; Samples.sv 2 "b"; Samples.sv 3 "c";
           Samples.sv 4 "d"; Samples.sv 5 "e"; Samples.sv 6 "f"]
          ["a"; "b"; "c"; "d"; "e"; "f"] 1]> ∅,
     []).
Proof. split; vm_compute; reflexivity. Qed.

(* ===================================================================== *)
(** ** Theorems: the voxel reducer over a log of actions *)
(* ===================================================================== *)

Section VoxelLogTheory.

Import Voxel VoxelLog.

Context {number any : Type}.
Variable toString : number -> string.

Abbreviation vrecord := (gmap string (Voxel number any)).
Abbreviation vaction := (VoxelAction number any).

(** One step of the reducer, read at a key: the key of the action gets the
    action's outcome, every other key keeps its entry. *)
Lemma voxelReducer_lookup (s : vrecord) (a : vaction) (k : string) :
  voxelReducer toString s a !! k
  = if decide (action_key toString a = k) then
      match a with add v => Some v | remove _ => None end
    else s !! k.
Proof.
  destruct a as [v | n]; cbn [voxelReducer action_key].
  - rewrite lookup_insert. by destruct (decide _).
  - rewrite lookup_delete. by destruct (decide _).
Qed.

(** X1: after a whole log of actions, what a key holds is decided by the
    last action of the log on that key alone: the voxel of an [add], nothing
    after a [remove], and the entry of the starting state when no action of
    the log has that key. *)
Theorem reduce_all_last_touch (actions : list vaction) (s : vrecord)
  (k : string) :
  reduce_all toString s actions !! k
  = match last_touch toString k actions with
    | Some (add v) => Some v
    | Some (remove _) => None
    | None => s !! k
    end.
Proof.
  revert s. induction actions as [ | a rest IH]; intros s; [reflexivity | ].
  cbn [reduce_all fold_left last_touch].
  change (fold_left (voxelReducer toString) rest ?s')
    with (reduce_all toString s' rest).
  rewrite IH. destruct (last_touch toString k rest) as [later | ];
    [reflexivity | ].
  rewrite voxelReducer_lookup.
  destruct (decide (action_key toString a = k)); [ | reflexivity].
  by destruct a.
Qed.

(** X2: the reducer keeps every voxel under the key of its own position. A
    record that is keyed this way stays so under any log of actions, and so
    does every record built up from the empty one. *)
Theorem reduce_all_keyed (actions : list vaction) (s : vrecord) :
  keyed toString s ->
  keyed toString (reduce_all toString s actions) /\
  keyed toString (reduce_all toString ∅ actions).
Proof.
  assert (Hstep : forall (acts : list vaction) (s0 : vrecord),
            keyed toString s0 -> keyed toString (reduce_all toString s0 acts)).
  { induction acts as [ | a rest IH]; intros s0 Hs0; [exact Hs0 | ].
    cbn [reduce_all fold_left]. apply IH.
    destruct a as [v | n]; cbn [voxelReducer].
    - by apply map_Forall_insert_2.
    - by apply map_Forall_delete. }
  intros Hs. split; apply Hstep; [exact Hs | apply map_Forall_empty].
Qed.

(** X3: two actions on different keys can be applied in either order. *)
Theorem voxelReducer_commute (s : vrecord) (a b : vaction) :
  action_key toString a <> action_key toString b ->
  voxelReducer toString (voxelReducer toString s a) b
  = voxelReducer toString (voxelReducer toString s b) a.
Proof.
  destruct a as [v | n], b as [w | m]; cbn [voxelReducer action_key];
    intros Hne.
  - by apply insert_insert_ne.
  - by rewrite delete_insert_ne.
  - by rewrite delete_insert_ne.
  - apply delete_delete.
Qed.

(** X4: of two actions in a row on the same key only the second counts,
    whatever the two are: add or remove. *)
Theorem voxelReducer_absorb (s : vrecord) (a b : vaction) :
  action_key toString a = action_key toString b ->
  voxelReducer toString (voxelReducer toString s a) b
  = voxelReducer toString s b.
Proof.
  destruct a as [v | n], b as [w | m]; cbn [voxelReducer action_key];
    intros ->.
  - apply insert_insert_eq.
  - apply delete_insert_eq.
  - apply insert_delete_eq.
  - apply delete_delete_eq.
Qed.

(** X5: the number of voxels. An [add] at a free key makes the record one
    larger and at a taken key leaves its size; a [remove] of a present name
    makes it one smaller and of an absent name leaves its size. *)
Theorem voxelReducer_size (s : vrecord) (a : vaction) :
  match a, s !! action_key toString a with
  | add _, None => size (voxelReducer toString s a) = S (size s)
  | add _, Some _ => size (voxelReducer toString s a) = size s
  | remove _, Some _ => S (size (voxelReducer toString s a)) = size s
  | remove _, None => size (voxelReducer toString s a) = size s
  end.
Proof.
  destruct a as [v | n]; cbn [voxelReducer action_key].
  - rewrite map_size_insert. by destruct (s !! _).
  - rewrite map_size_delete. destruct (s !! n) as [x | ] eqn:Hn; [ | done].
    assert (size s <> 0%nat) as Hpos.
    { intros H0. apply map_size_empty_inv in H0. subst s.
      by rewrite lookup_empty in Hn. }
    cbn. lia.
Qed.

(** *** Keys and positions *)

(** Text in front of the first colon and the text behind it are fixed by
    the whole. *)
Lemma colon_split (a a' r r' : string) :
  colon_free a = true -> colon_free a' = true ->
  a +:+ String ":" r = a' +:+ String ":" r' -> a = a' /\ r = r'.
Proof.
  revert a'. induction a as [ | c a IH]; intros [ | c' a'] Ha Ha' Heq;
    cbn [colon_free] in Ha, Ha'.
  - injection Heq as ->. done.
  - injection Heq as <- _. done.
  - injection Heq as -> _. done.
  - injection Heq as -> Heq.
    apply andb_true_iff in Ha as [_ Ha], Ha' as [_ Ha'].
    destruct (IH a' Ha Ha' Heq) as [-> ->]. done.
Qed.

(** X6: when the text of a number has no colon and different numbers have
    different texts, different positions have different keys; two voxels at
    different positions then never displace one another. *)
Theorem join_distinct_positions (s : vrecord) (v1 v2 : Voxel number any) :
  (forall n, colon_free (toString n) = true) ->
  (forall n m, toString n = toString m -> n = m) ->
  position v1 <> position v2 ->
  join toString ":" (position v1) <> join toString ":" (position v2) /\
  let s' := voxelReducer toString (voxelReducer toString s (add v1)) (add v2) in
  s' !! join toString ":" (position v1) = Some v1 /\
  s' !! join toString ":" (position v2) = Some v2.
Proof.
  intros Hfree Hinj Hpos.
  assert (Hkeys : join toString ":" (position v1)
                  <> join toString ":" (position v2)).
  { intros Heq. apply Hpos.
    destruct (position v1) as [[x1 y1] z1], (position v2) as [[x2 y2] z2].
    cbn [join] in Heq.
    change (toString x1
              +:+ String ":" (toString y1 +:+ String ":" (toString z1))
            = toString x2
              +:+ String ":" (toString y2 +:+ String ":" (toString z2)))
      in Heq.
    apply colon_split in Heq as [Hx Heq]; [ | apply Hfree ..].
    apply colon_split in Heq as [Hy Hz]; [ | apply Hfree ..].
    by rewrite (Hinj _ _ Hx), (Hinj _ _ Hy), (Hinj _ _ Hz). }
  split; [exact Hkeys | ]. cbn [voxelReducer]. split.
  - rewrite lookup_insert_ne by done. apply lookup_insert_eq.
  - apply lookup_insert_eq.
Qed.

(** *** The heap *)

(** X7: every call of the reducer makes one new object. The reference it
    returns is not the one it was given and was not in use before, the heap
    grows by exactly that object, and this is so even for a [remove] of a
    name the record does not have, where the new object has the contents of
    the old one. *)
Theorem voxelReducer_heap_fresh (h : gmap loc vrecord) (state : loc)
  (s : vrecord) (a : vaction) :
  h !! state = Some s ->
  exists h' r,
    voxelReducer_heap toString h state a = Some (h', r) /\
    r <> state /\ (r ∉ dom h) /\ dom h' = {[r]} ∪ dom h /\
    (forall n, a = remove n -> s !! n = None -> h' !! r = h' !! state).
Proof.
  intros Hs.
  destruct (voxelReducer_heap_spec toString h state s a Hs)
    as (h' & r & Hrun & Hr & -> & Hsub).
  exists (<[r := voxelReducer toString s a]> h), r.
  assert (Hne : r <> state) by (intros ->; by rewrite Hs in Hr).
  split_and!; try done.
  - by apply not_elem_of_dom.
  - apply dom_insert_L.
  - intros n -> Hn. rewrite lookup_insert_eq, lookup_insert_ne, Hs by done.
    cbn [voxelReducer]. by rewrite delete_id.
Qed.

(** X8: a whole log run on the heap returns, and the object it returns
    holds the fold of [voxelReducer] over the log; the objects that were
    there are unchanged and one object is added per action. *)
Theorem reduce_all_heap_refines (actions : list vaction) :
  forall (h : gmap loc vrecord) (state : loc) (s : vrecord),
  h !! state = Some s ->
  exists h' r,
    reduce_all_heap toString h state actions = Some (h', r) /\
    h' !! r = Some (reduce_all toString s actions) /\
    h ⊆ h' /\
    size h' = (size h + length actions)%nat.
Proof.
  induction actions as [ | a rest IH]; intros h state s Hs.
  - exists h, state. cbn. split_and!; try done.
  - destruct (voxelReducer_heap_spec toString h state s a Hs)
      as (h1 & r1 & Hrun & Hr & -> & Hsub).
    destruct (IH (<[r1 := voxelReducer toString s a]> h) r1
                (voxelReducer toString s a) (lookup_insert_eq _ _ _))
      as (h' & r & Hrest & Hres & Hsub' & Hsize).
    exists h', r. cbn [reduce_all_heap]. rewrite Hrun. cbn.
    split_and!; try done.
    + by trans (<[r1 := voxelReducer toString s a]> h).
    + rewrite Hsize, map_size_insert_None by done. cbn [length]. lia.
Qed.

End VoxelLogTheory.

(* ===================================================================== *)
(** ** Theorems: the editor *)
(* ===================================================================== *)

Section EditorTheory.

Import Voxel VoxelLog Editor.

Context {number any : Type} `{NumberOps number}.

Abbreviation erecord := (gmap string (Voxel number any)).

Lemma Voxel_component_name (v : Voxel number any) (name : option string) :
  mesh_name (Voxel_component v name) = name.
Proof. unfold Voxel_component. by destruct (position v) as [[p0 p1] p2]. Qed.

Lemma join_nonempty (p : Vector3Tuple number) : join num_toString ":" p <> "".
Proof.
  destruct p as [[x y] z]. cbn [join].
  by destruct (num_toString x).
Qed.

(** [getPosition] throws when the first intersection has no face, and
    only then. *)
Lemma getPosition_Throw (intersections : list (Intersection number)) :
  getPosition intersections = Throw <->
  exists first rest, intersections = first :: rest /\ face first = None.
Proof.
  destruct intersections as [ | first rest]; cbn [getPosition].
  - split; [done | ]. by intros (? & ? & ? & _).
  - destruct (face first) as [f | ] eqn:Hf.
    + split; [done | ]. intros (? & ? & [= <- <-] & Hnone). congruence.
    + split; [eauto | done].
Qed.

(** X9: [getPosition] looks at the first intersection only. It returns
    [null] exactly when there is no intersection and throws exactly when
    the first intersection has no face; whatever lies behind the first
    intersection does not change the result. *)
Theorem getPosition_first (intersections : list (Intersection number)) :
  (getPosition intersections = Return None <-> intersections = []) /\
  (getPosition intersections = Throw <->
   exists first rest, intersections = first :: rest /\ face first = None) /\
  (forall first rest, getPosition (first :: rest) = getPosition [first]).
Proof.
  split_and!.
  - destruct intersections as [ | first rest]; cbn [getPosition];
      [done | ].
    by destruct (face first).
  - apply getPosition_Throw.
  - reflexivity.
Qed.

(** X17: when [Math.floor] leaves a floored number as it is, every
    coordinate [getPosition] returns is a floored number. *)
Theorem getPosition_floored (intersections : list (Intersection number))
  (x y z : number) :
  (forall n, num_floor (num_floor n) = num_floor n) ->
  getPosition intersections = Return (Some (x, y, z)) ->
  num_floor x = x /\ num_floor y = y /\ num_floor z = z.
Proof.
  intros Hfloor. destruct intersections as [ | first rest];
    cbn [getPosition]; [done | ].
  destruct (face first) as [[[[nx ny] nz]] | ]; [ | done].
  destruct (point first) as [[px py] pz].
  cbn [normal Vector3_add multiplyScalar Vector3_floor toArray].
  intros [= <- <- <-]. by rewrite !Hfloor.
Qed.

(** X10: what one click can do. It dispatches at most one action; a drag
    (a [delta] above 5) dispatches none and lets the event through; and
    [stopPropagation] is called exactly on a shift-click that is no drag. *)
Theorem handleClick_outcomes (color : any) (event : ThreeEvent number)
  (actions : list (VoxelAction number any)) (stopped : bool) :
  handleClick color event = Return (actions, stopped) ->
  (length actions <= 1)%nat /\
  (num_gt (delta event) (num_of_Z 5) = true ->
   actions = [] /\ stopped = false) /\
  (stopped = true <->
   num_gt (delta event) (num_of_Z 5) = false /\ shiftKey event = true).
Proof.
  unfold handleClick.
  destruct (num_gt (delta event) (num_of_Z 5)).
  { intros [= <- <-]. cbn. split_and!; [lia | done | ].
    split; [done | by intros [? _]]. }
  destruct (shiftKey event).
  { destruct (decide (object_name event = "")); intros [= <- <-]; cbn;
      (split_and!; [lia | done | done]). }
  destruct (getPosition (intersections event)) as [[p | ] | ];
    intros [= <- <-]; cbn;
    (split_and!; [lia | done | split; [done | by intros [_ ?]]]).
Qed.

(** X11: where a dispatched action comes from. A [remove] is dispatched on
    a shift-click only, for the name of the object hit, and never for the
    empty name; an [add] is dispatched on a click without shift only, and
    its voxel has the colour in hand, opacity 1 and the position that
    [getPosition] returns for the event. *)
Theorem handleClick_actions (color : any) (event : ThreeEvent number)
  (actions : list (VoxelAction number any)) (stopped : bool) :
  handleClick color event = Return (actions, stopped) ->
  (forall n, In (remove n) actions ->
     shiftKey event = true /\ n = object_name event /\ n <> "") /\
  (forall v, In (add v) actions ->
     shiftKey event = false /\
     Voxel.color v = color /\
     opacity v = num_of_Z 1 /\
     getPosition (intersections event) = Return (Some (position v))).
Proof.
  unfold handleClick.
  destruct (num_gt (delta event) (num_of_Z 5)).
  { intros [= <- <-]. split; intros ? Hin; destruct Hin. }
  destruct (shiftKey event).
  { destruct (decide (object_name event = "")) as [Hname | Hname];
      intros [= <- <-]; split.
    - intros n Hin. destruct Hin.
    - intros v Hin. destruct Hin.
    - intros n [Heq | Hin]; [ | destruct Hin]. injection Heq as <-. done.
    - intros v [Heq | Hin]; [discriminate Heq | destruct Hin]. }
  destruct (getPosition (intersections event)) as [[p | ] | ];
    intros [= <- <-]; split.
  - intros n [Heq | Hin]; [discriminate Heq | destruct Hin].
  - intros v [Heq | Hin]; [ | destruct Hin]. injection Heq as <-. done.
  - intros n Hin. destruct Hin.
  - intros v Hin. destruct Hin.
Qed.

(** X12: [handleClick] throws exactly when the click is no drag, shift is
    not held, and the first intersection of the event has no face. *)
Theorem handleClick_throws (color : any) (event : ThreeEvent number) :
  handleClick color event = Throw <->
  num_gt (delta event) (num_of_Z 5) = false /\
  shiftKey event = false /\
  exists first rest,
    intersections event = first :: rest /\ face first = None.
Proof.
  rewrite <- getPosition_Throw.
  unfold handleClick.
  destruct (num_gt (delta event) (num_of_Z 5)).
  { split; [done | by intros [? _]]. }
  destruct (shiftKey event).
  { destruct (decide (object_name event = ""));
      (split; [done | by intros (_ & ? & _)]). }
  destruct (getPosition (intersections event)) as [[p | ] | ];
    (split; [done | by intros (_ & _ & ?)]) || done.
Qed.

(** The meshes of [VoxelSet] are the [Voxel]s of the entries, each named
    by its key. *)
Lemma VoxelSet_In (s : erecord) (m : Mesh number any) :
  In m (VoxelSet s) <->
  exists k v, s !! k = Some v /\ m = Voxel_component v (Some k).
Proof.
  unfold VoxelSet. rewrite <- list_elem_of_In, list_elem_of_fmap. split.
  - intros ([k v] & -> & Hkv). apply elem_of_map_to_list in Hkv. eauto.
  - intros (k & v & Hkv & ->). exists (k, v).
    split; [done | by apply elem_of_map_to_list].
Qed.

(** X15: [VoxelSet] renders one mesh per voxel of the record: as many
    meshes as entries, each the [Voxel] of an entry named by the entry's
    key, and no two meshes with the same name. *)
Theorem VoxelSet_meshes (s : erecord) :
  length (VoxelSet s) = size s /\
  (forall m, In m (VoxelSet s) <->
     exists k v, s !! k = Some v /\ m = Voxel_component v (Some k)) /\
  NoDup (mesh_name <$> VoxelSet s).
Proof.
  unfold VoxelSet. split_and!.
  - by rewrite length_fmap, length_map_to_list.
  - intros m. apply (VoxelSet_In s m).
  - rewrite <- list_fmap_compose.
    rewrite (list_fmap_ext _ (Some ∘ fst) (map_to_list s)).
    + rewrite (list_fmap_compose fst Some).
      apply (NoDup_fmap_2 Some), NoDup_fst_map_to_list.
    + intros i [k v] _. cbn. apply Voxel_component_name.
Qed.

(** X13: shift-clicking a voxel deletes it. In a record that keeps every
    voxel under the key of its position, a shift-click that is no drag on a
    mesh of [VoxelSet] dispatches the [remove] of that mesh's name, and the
    reducer then drops exactly that voxel: the record is one smaller and
    every other key keeps its entry. *)
Theorem shift_click_removes (s : erecord) (m : Mesh number any) (color : any)
  (event : ThreeEvent number) :
  keyed num_toString s ->
  In m (VoxelSet s) ->
  mesh_name m = Some (object_name event) ->
  shiftKey event = true ->
  num_gt (delta event) (num_of_Z 5) = false ->
  handleClick color event = Return ([remove (object_name event)], true) /\
  let s' := voxelReducer num_toString s (remove (object_name event)) in
  s' !! object_name event = None /\
  S (size s') = size s /\
  (forall k, k <> object_name event -> s' !! k = s !! k).
Proof.
  intros Hkeyed Hm Hname Hshift Hdelta.
  apply VoxelSet_In in Hm as (k & v & Hkv & ->).
  rewrite Voxel_component_name in Hname. injection Hname as ->.
  assert (Hne : object_name event <> "").
  { rewrite (Hkeyed _ _ Hkv). apply join_nonempty. }
  split.
  - unfold handleClick. rewrite Hdelta, Hshift.
    by destruct (decide (object_name event = "")).
  - cbn [voxelReducer]. split_and!.
    + apply lookup_delete_eq.
    + rewrite map_size_delete, Hkv.
      assert (size s <> 0%nat).
      { intros H0. apply map_size_empty_inv in H0. subst s.
        by rewrite lookup_empty in Hkv. }
      cbn. lia.
    + intros k' Hk'. by apply lookup_delete_ne.
Qed.

(** X14: a click on a face adds a voxel. A click that is no drag, without
    shift, whose first intersection has a face dispatches one [add]; after
    the reducer the voxel sits under the key of its position and is
    rendered under that name, every other key keeps its entry, and the same
    click once more changes nothing. *)
Theorem plain_click_adds (s : erecord) (color : any)
  (event : ThreeEvent number) (first : Intersection number)
  (rest : list (Intersection number)) (f : Face number) :
  num_gt (delta event) (num_of_Z 5) = false ->
  shiftKey event = false ->
  intersections event = first :: rest ->
  face first = Some f ->
  exists v,
    handleClick color event = Return ([add v], false) /\
    Voxel.color v = color /\ opacity v = num_of_Z 1 /\
    let key := join num_toString ":" (position v) in
    let s' := voxelReducer num_toString s (add v) in
    s' !! key = Some v /\
    In (Voxel_component v (Some key)) (VoxelSet s') /\
    (forall k, k <> key -> s' !! k = s !! k) /\
    voxelReducer num_toString s' (add v) = s'.
Proof.
  intros Hdelta Hshift Hints Hface.
  unfold handleClick. rewrite Hdelta, Hshift, Hints.
  cbn [getPosition]. rewrite Hface.
  eexists. split; [reflexivity | ]. cbn [Voxel.color opacity position].
  split_and!; try done; cbn [voxelReducer position].
  - apply lookup_insert_eq.
  - apply VoxelSet_In.
    eexists _, _. split; [apply lookup_insert_eq | reflexivity].
  - intros k Hk. by apply lookup_insert_ne.
  - apply insert_insert_eq.
Qed.

(** The ref never goes back to [false]. *)
Lemma positionHasBeenSet_stays (calls : list (option (Vector3 number))) :
  fold_left (fun flag c => (setInitialCameraPosition flag c).1) calls true
  = true.
Proof.
  induction calls as [ | c calls IH]; [reflexivity | ].
  cbn [fold_left]. by destruct c.
Qed.

(** X16: the camera is placed once. After any calls of
    [setInitialCameraPosition] of which one had controls, or with the ref
    already set, a further call leaves the camera where it stands. *)
Theorem camera_placed_once (calls : list (option (Vector3 number)))
  (flag : bool) (controls : option (Vector3 number)) :
  flag = true \/ (exists c, In (Some c) calls) ->
  setInitialCameraPosition
    (fold_left (fun flag c => (setInitialCameraPosition flag c).1) calls flag)
    controls
  = (true, controls).
Proof.
  intros Hset.
  assert (Hflag : fold_left
                    (fun flag c => (setInitialCameraPosition flag c).1)
                    calls flag = true).
  { destruct Hset as [-> | [c Hc]]; [apply positionHasBeenSet_stays | ].
    revert flag. induction calls as [ | c0 calls IH]; intros flag;
      [destruct Hc | ].
    cbn [fold_left]. destruct Hc as [-> | Hc]; [ | by apply IH].
    destruct flag; cbn; apply positionHasBeenSet_stays. }
  rewrite Hflag. by destruct controls.
Qed.

End EditorTheory.

(* ===================================================================== *)
(** ** The text of an integer *)
(* ===================================================================== *)

Lemma pretty_N_go_colon_free (x : N) : forall s,
  VoxelLog.colon_free s = true ->
  VoxelLog.colon_free (pretty_N_go x s) = true.
Proof.
  induction (N.lt_wf_0 x) as [x _ IH]; intros s Hs.
  destruct (decide (x = 0%N)) as [-> | Hx].
  - by rewrite pretty_N_go_0.
  - rewrite pretty_N_go_step by lia. apply IH.
    + apply N.div_lt; lia.
    + cbn [VoxelLog.colon_free]. rewrite Hs, andb_true_r.
      unfold pretty_N_char. by repeat case_match.
Qed.

Lemma pretty_N_colon_free (x : N) : VoxelLog.colon_free (pretty x) = true.
Proof.
  unfold pretty, pretty_N. destruct (decide (x = 0%N)); [reflexivity | ].
  by apply pretty_N_go_colon_free.
Qed.

(** The decimal text of an integer has no colon. *)
Lemma toString_colon_free (n : Z) :
  VoxelLog.colon_free (Samples.toString n) = true.
Proof.
  unfold Samples.toString, pretty, pretty_Z.
  destruct n as [ | p | p]; [reflexivity | apply pretty_N_colon_free | ].
  cbn [VoxelLog.colon_free String.append]. apply pretty_N_colon_free.
Qed.

(* ===================================================================== *)
(** ** Instances of the theorems on the sample data *)
(* ===================================================================== *)

(** The sample scene is keyed, and stays so after a log. *)
Lemma reduce_all_keyed_witness :
  VoxelLog.keyed Samples.toString Samples.scene /\
  VoxelLog.keyed Samples.toString
    (VoxelLog.reduce_all Samples.toString Samples.scene
       [Voxel.add Samples.red; Voxel.remove "1:0:-2"]).
Proof.
  assert (Hk : VoxelLog.keyed Samples.toString Samples.scene).
  { apply map_Forall_insert_2; [reflexivity | apply map_Forall_empty]. }
  split; [exact Hk | ].
  exact (proj1 (reduce_all_keyed Samples.toString
                  [Voxel.add Samples.red; Voxel.remove "1:0:-2"]
                  Samples.scene Hk)).
Defined.

(** Adding at the origin and removing the green voxel commute. *)
Lemma voxelReducer_commute_witness :
  VoxelLog.action_key (any := string) Samples.toString (Voxel.add Samples.red)
  <> VoxelLog.action_key (any := string) Samples.toString
       (Voxel.remove "1:0:-2") /\
  Voxel.voxelReducer Samples.toString
    (Voxel.voxelReducer Samples.toString Samples.scene (Voxel.add Samples.red))
    (Voxel.remove "1:0:-2")
  = Voxel.voxelReducer Samples.toString
      (Voxel.voxelReducer Samples.toString Samples.scene
         (Voxel.remove "1:0:-2"))
      (Voxel.add Samples.red).
Proof.
  assert (Hne : VoxelLog.action_key (any := string) Samples.toString
                  (Voxel.add Samples.red)
                <> VoxelLog.action_key (any := string) Samples.toString
                     (Voxel.remove "1:0:-2"))
    by (vm_compute; discriminate).
  split; [exact Hne | ].
  exact (voxelReducer_commute Samples.toString Samples.scene
           (Voxel.add Samples.red) (Voxel.remove "1:0:-2") Hne).
Defined.

(** The red voxel added at the origin and the origin removed right after. *)
Lemma voxelReducer_absorb_witness :
  VoxelLog.action_key (any := string) Samples.toString (Voxel.add Samples.red)
  = VoxelLog.action_key (any := string) Samples.toString
      (Voxel.remove "0:0:0") /\
  Voxel.voxelReducer Samples.toString
    (Voxel.voxelReducer Samples.toString Samples.scene (Voxel.add Samples.red))
    (Voxel.remove "0:0:0")
  = Voxel.voxelReducer Samples.toString Samples.scene (Voxel.remove "0:0:0").
Proof.
  split; [reflexivity | ].
  exact (voxelReducer_absorb Samples.toString Samples.scene
           (Voxel.add Samples.red) (Voxel.remove "0:0:0") eq_refl).
Defined.

(** Decimal text has no colon and tells integers apart; the red and the
    green voxel stand at different positions. *)
Lemma join_distinct_positions_witness :
  (forall n, VoxelLog.colon_free (Samples.toString n) = true) /\
  (forall n m, Samples.toString n = Samples.toString m -> n = m) /\
  Voxel.position Samples.red <> Voxel.position Samples.green /\
  Voxel.join Samples.toString ":" (Voxel.position Samples.red)
  <> Voxel.join Samples.toString ":" (Voxel.position Samples.green).
Proof.
  assert (Hinj : forall n m,
            Samples.toString n = Samples.toString m -> n = m).
  { intros n m. apply pretty_Z_inj. }
  assert (Hpos : Voxel.position Samples.red <> Voxel.position Samples.green)
    by discriminate.
  split_and!; [exact toString_colon_free | exact Hinj | exact Hpos | ].
  exact (proj1 (join_distinct_positions Samples.toString Samples.scene
                  Samples.red Samples.green toString_colon_free Hinj Hpos)).
Defined.

(** A [remove] of a missing name in the first sample heap. *)
Lemma voxelReducer_heap_fresh_witness :
  Samples.heap1 !! 1%positive = Some Samples.scene /\
  exists h' r,
    Voxel.voxelReducer_heap Samples.toString Samples.heap1 1%positive
      (Voxel.remove "0:0:0") = Some (h', r) /\
    r <> 1%positive.
Proof.
  assert (H1 : Samples.heap1 !! 1%positive = Some Samples.scene)
    by (vm_compute; reflexivity).
  split; [exact H1 | ].
  destruct (voxelReducer_heap_fresh Samples.toString Samples.heap1 1%positive
              Samples.scene (Voxel.remove "0:0:0") H1)
    as (h' & r & Hrun & Hne & _).
  exists h', r. split; [exact Hrun | exact Hne].
Defined.

(** A log of three actions run on the first sample heap. *)
Lemma reduce_all_heap_refines_witness :
  let log := [Voxel.add Samples.red; Voxel.add Samples.blue;
              Voxel.remove "1:0:-2"] in
  Samples.heap1 !! 1%positive = Some Samples.scene /\
  exists h' r,
    VoxelLog.reduce_all_heap Samples.toString Samples.heap1 1%positive log
    = Some (h', r) /\
    h' !! r = Some (VoxelLog.reduce_all Samples.toString Samples.scene log).
Proof.
  cbv zeta.
  assert (H1 : Samples.heap1 !! 1%positive = Some Samples.scene)
    by (vm_compute; reflexivity).
  split; [exact H1 | ].
  destruct (reduce_all_heap_refines Samples.toString
              [Voxel.add Samples.red; Voxel.add Samples.blue;
               Voxel.remove "1:0:-2"]
              Samples.heap1 1%positive Samples.scene H1)
    as (h' & r & Hrun & Hres & _).
  exists h', r. split; [exact Hrun | exact Hres].
Defined.

Section EditorInstances.

Import EditorSamples.

(** On the rationals a floored number is its own floor. *)
Lemma Q_floor_floor (q : Q) :
  Editor.num_floor (Editor.num_floor q) = Editor.num_floor q.
Proof.
  change (inject_Z (Qfloor (inject_Z (Qfloor q))) = inject_Z (Qfloor q)).
  by rewrite Qfloor_Z.
Qed.

(** The hit on the ground gives the cell at the origin. *)
Lemma getPosition_floored_witness :
  (forall q : Q, Editor.num_floor (Editor.num_floor q) = Editor.num_floor q) /\
  Editor.getPosition [EditorSamples.ground_hit]
  = Editor.Return (Some (0, 0, 0)%Q) /\
  Editor.num_floor 0%Q = 0%Q.
Proof.
  assert (Hpos : Editor.getPosition [EditorSamples.ground_hit]
                 = Editor.Return (Some (0, 0, 0)%Q))
    by (vm_compute; reflexivity).
  split_and!; [exact Q_floor_floor | exact Hpos | ].
  exact (proj1 (getPosition_floored [EditorSamples.ground_hit] 0%Q 0%Q 0%Q
                  Q_floor_floor Hpos)).
Defined.

(** The shift-click returns, having stopped the event. *)
Lemma handleClick_outcomes_witness :
  Editor.handleClick "#D33115" EditorSamples.shift_click
  = Editor.Return ([Voxel.remove "1:0:-2"], true) /\
  (length [Voxel.remove (number := Q) (any := string) "1:0:-2"] <= 1)%nat.
Proof.
  assert (Hrun : Editor.handleClick "#D33115" EditorSamples.shift_click
                 = Editor.Return ([Voxel.remove "1:0:-2"], true))
    by (vm_compute; reflexivity).
  split; [exact Hrun | ].
  exact (proj1 (handleClick_outcomes "#D33115" EditorSamples.shift_click
                  [Voxel.remove "1:0:-2"] true Hrun)).
Defined.

(** The plain click dispatches an [add] in the colour in hand. *)
Lemma handleClick_actions_witness :
  let v := Voxel.mkVoxel (0, 0, 0)%Q "#D33115" 1%Q in
  Editor.handleClick "#D33115" EditorSamples.plain_click
  = Editor.Return ([Voxel.add v], false) /\
  Voxel.color v = "#D33115".
Proof.
  cbv zeta.
  assert (Hrun : Editor.handleClick "#D33115" EditorSamples.plain_click
                 = Editor.Return
                     ([Voxel.add (Voxel.mkVoxel (0, 0, 0)%Q "#D33115" 1%Q)],
                      false))
    by (vm_compute; reflexivity).
  split; [exact Hrun | ].
  destruct (handleClick_actions "#D33115" EditorSamples.plain_click _ _ Hrun)
    as [_ Hadd].
  exact (proj1 (proj2 (Hadd _ (or_introl eq_refl)))).
Defined.

(** The shift-click on the mesh of the green voxel empties the scene. *)
Lemma shift_click_removes_witness :
  let m := Editor.Voxel_component EditorSamples.green (Some "1:0:-2") in
  VoxelLog.keyed Editor.num_toString EditorSamples.scene /\
  In m (Editor.VoxelSet EditorSamples.scene) /\
  Editor.mesh_name m = Some (Editor.object_name EditorSamples.shift_click) /\
  Editor.shiftKey EditorSamples.shift_click = true /\
  Editor.num_gt (Editor.delta EditorSamples.shift_click) (Editor.num_of_Z 5)
  = false /\
  Editor.handleClick "#D33115" EditorSamples.shift_click
  = Editor.Return ([Voxel.remove "1:0:-2"], true).
Proof.
  cbv zeta.
  assert (Hk : VoxelLog.keyed Editor.num_toString EditorSamples.scene).
  { apply map_Forall_insert_2; [reflexivity | apply map_Forall_empty]. }
  assert (Hm : In (Editor.Voxel_component EditorSamples.green (Some "1:0:-2"))
                 (Editor.VoxelSet EditorSamples.scene))
    by (vm_compute; left; reflexivity).
  split_and!;
    [exact Hk | exact Hm | reflexivity | reflexivity | reflexivity | ].
  exact (proj1 (shift_click_removes EditorSamples.scene _ "#D33115"
                  EditorSamples.shift_click Hk Hm eq_refl eq_refl eq_refl)).
Defined.

(** The plain click on the ground adds a voxel at the origin. *)
Lemma plain_click_adds_witness :
  Editor.num_gt (Editor.delta EditorSamples.plain_click) (Editor.num_of_Z 5)
  = false /\
  Editor.shiftKey EditorSamples.plain_click = false /\
  Editor.intersections EditorSamples.plain_click
  = [EditorSamples.ground_hit] /\
  exists v,
    Editor.handleClick "#D33115" EditorSamples.plain_click
    = Editor.Return ([Voxel.add v], false) /\
    Voxel.color v = "#D33115".
Proof.
  assert (Hdelta : Editor.num_gt (Editor.delta EditorSamples.plain_click)
                     (Editor.num_of_Z 5) = false) by reflexivity.
  split_and!; [exact Hdelta | reflexivity | reflexivity | ].
  destruct (plain_click_adds EditorSamples.scene "#D33115"
              EditorSamples.plain_click EditorSamples.ground_hit []
              (Editor.mkFace (0, 1, 0)%Q) Hdelta eq_refl eq_refl eq_refl)
    as (v & Hrun & Hcolor & _).
  exists v. split; [exact Hrun | exact Hcolor].
Defined.

(** Two calls with controls: the second leaves the camera at (3, 4, 5). *)
Lemma camera_placed_once_witness :
  In (Some (1, 1, 1)%Q) [Some (1, 1, 1)%Q] /\
  Editor.setInitialCameraPosition
    (Editor.setInitialCameraPosition false (Some (1, 1, 1)%Q)).1
    (Some (3, 4, 5)%Q)
  = (true, Some (3, 4, 5)%Q).
Proof.
  assert (Hin : In (Some (1, 1, 1)%Q) [Some (1, 1, 1)%Q])
    by (left; reflexivity).
  split; [exact Hin | ].
  exact (camera_placed_once [Some (1, 1, 1)%Q] false (Some (3, 4, 5)%Q)
           (or_intror (ex_intro _ (1, 1, 1)%Q Hin))).
Defined.

End EditorInstances.
